(** * CoolProp.Plots.Plots: [_plotRound] and [calc_isolines] of [PropertyPlot]

    A shallow embedding of the isoline rounding routine of
    [src/CoolProp/Plots/Plots.py] and of the argument validation of
    [calc_isolines], over IEEE binary64 numbers (Rocq's primitive floats,
    which are the [numpy.float64] of the source).

    Layout:
    - [Py]      Python results: a value or a raised exception;
    - [Numpy]   the numpy functions the routine calls ([sort], [unique],
                [around], [log10] under [around], [where]);
    - [Plots]   [_plotRound] and [calc_isolines], line by line;
    - float facts (order, absence of NaN), list facts, then the properties
      of the specification, followed by further properties of the two
      methods. *)

From Stdlib Require Import ZArith List Bool Lia Floats Sorted Permutation.
Import ListNotations.

Set Warnings "-inexact-float".
Open Scope Z_scope.

(** ** Python results *)

Module Py.

Inductive exn := ValueError | OverflowError | IndexError | TypeError.

Inductive result (A : Type) : Type :=
| Ok (a : A)
| Raise (e : exn).
Arguments Ok {A} a.
Arguments Raise {A} e.

Definition bind {A B : Type} (r : result A) (k : A -> result B) : result B :=
  match r with
  | Ok a => k a
  | Raise e => Raise e
  end.

(** [l[i]] for reading. *)
Definition getitem {A : Type} (l : list A) (i : nat) : result A :=
  match nth_error l i with
  | Some a => Ok a
  | None => Raise IndexError
  end.

(** [l[i] = a]: an index past the end raises. *)
Fixpoint setitem {A : Type} (l : list A) (i : nat) (a : A) : result (list A) :=
  match l, i with
  | [], _ => Raise IndexError
  | _ :: l', O => Ok (a :: l')
  | b :: l', S i' =>
      match setitem l' i' a with
      | Ok r => Ok (b :: r)
      | Raise e => Raise e
      end
  end.

(** [int(x)] of a float: truncation towards zero; NaN and the infinities
    raise. *)
Definition int (x : float) : result Z :=
  match Prim2SF x with
  | S754_zero _ => Ok 0
  | S754_finite s m e => Ok (cond_Zopp s (Z.shiftl (Zpos m) e))
  | S754_infinity _ => Raise OverflowError
  | S754_nan => Raise ValueError
  end.

(** An integer as a float (the conversion Python applies to an [int]
    operand of a float operation); exact below 2^53. *)
Definition float_of_int (z : Z) : float :=
  if z <? 0 then (- of_uint63 (Uint63.of_Z (- z)))%float
  else of_uint63 (Uint63.of_Z z).

End Py.

Notation "x <- c1 ;; c2" := (Py.bind c1 (fun x => c2))
  (at level 61, c1 at next level, right associativity).

(** ** The numpy functions used by the routine *)

Module Numpy.

(** The order numpy sorts floats by, [a < b || (b != b && a == a)]: [<],
    with NaN after everything. *)
Definition lt (a b : float) : bool :=
  (a <? b)%float || (negb (b =? b)%float && (a =? a)%float).

(** [x] goes after the elements that sort before it, and before those
    that compare equal to it. *)
Fixpoint insert (x : float) (l : list float) : list float :=
  match l with
  | [] => [x]
  | y :: l' => if lt y x then y :: insert x l' else x :: y :: l'
  end.

(** [numpy.sort]: on the short arrays of the routine an insertion sort,
    which keeps the input order of elements that compare equal (the two
    zeros); [x], the first element of the input, is inserted before its
    equals. *)
Fixpoint sort (l : list float) : list float :=
  match l with
  | [] => []
  | x :: l' => insert x (sort l')
  end.

(** The mask [ar[1:] != ar[:-1]] applied to [ar[1:]], [prev] being the
    element before the head. *)
Fixpoint drop_repeats (prev : float) (l : list float) : list float :=
  match l with
  | [] => []
  | y :: l' =>
      if negb (y =? prev)%float then y :: drop_repeats y l'
      else drop_repeats y l'
  end.

(** [numpy.unique]: sort, then keep the first element and every element
    that differs from the one before it.  A NaN differs from every
    element, so every NaN is kept, as in the numpy releases before 1.21;
    later releases keep one NaN.  The two agree on arrays without NaN. *)
Definition unique (l : list float) : list float :=
  match sort l with
  | [] => []
  | x :: l' => x :: drop_repeats x l'
  end.

(** C [rint] in the default rounding mode: nearest integer, ties to even.
    Below 2^52 adding and subtracting 2^52 rounds to the integer grid. *)
Definition rint (x : float) : float :=
  if (abs x <? 0x1p52)%float then
    if (x =? 0)%float then x
    else if (x <? 0)%float then (- ((- x + 0x1p52) - 0x1p52))%float
    else ((x + 0x1p52) - 0x1p52)%float
  else x.

Definition p10 : list float :=
  [1e0; 1e1; 1e2; 1e3; 1e4; 1e5; 1e6; 1e7; 1e8]%float.

Fixpoint times_ten (k : nat) (ret : float) : float :=
  match k with
  | O => ret
  | S k' => times_ten k' (ret * 10)%float
  end.

(** numpy's [power_of_ten(n)], for [0 <= n]. *)
Definition power_of_ten (n : Z) : float :=
  if n <? 9 then nth (Z.to_nat n) p10 nan
  else times_ten (Z.to_nat (n - 9)) 1e9%float.

(** [numpy.around(a, decimals)] on a float, as numpy computes it: scale by
    the power of ten, [rint], scale back ([rint] alone for 0 decimals). *)
Definition around (a : float) (decimals : Z) : float :=
  if 0 <=? decimals then
    if decimals =? 0 then rint a
    else (rint (a * power_of_ten decimals) / power_of_ten decimals)%float
  else (rint (a / power_of_ten (- decimals)) * power_of_ten (- decimals))%float.

(** *** [numpy.around(numpy.log10(x))]

    The binary64 logarithm is not an operation of the primitive floats, so
    the composition is given as a whole and idealised: for a positive
    finite [x] the integer nearest to the real [log10 x].  [x = m * 2^e] is
    compared with the odd powers of [sqrt 10] exactly, on squares.  The
    logarithm of the C library is within an ulp of the real one and
    [numpy.around] rounds a half-integer to the even integer, so the
    routine agrees with this integer except at the floats next to an odd
    power of [sqrt 10], where the binary64 logarithm is a half-integer or
    falls on its other side: for 3.1622776601683795, the float above
    [sqrt 10], the binary64 logarithm is 0.5, which the routine rounds to
    0, and the integer given here is 1.  [Plots.val_with] takes the
    logarithm of the library as a parameter. *)

(** [10^j < n * 2^s], for [0 < n]. *)
Definition pow10_ltb (j n s : Z) : bool :=
  let l := if 0 <=? j then 10 ^ j else 1 in
  let r := if 0 <=? j then n else n * 10 ^ (- j) in
  if 0 <=? s then l <? Z.shiftl r s else Z.shiftl l (- s) <? r.


(** The last [k' >= k] reached from [k] through integers that satisfy [p]. *)
Fixpoint search_up (fuel : nat) (k : Z) (p : Z -> bool) : Z :=
  match fuel with
  | O => k
  | S fuel' => if p (k + 1) then search_up fuel' (k + 1) p else k
  end.

(** The first [k' <= k] that satisfies [p]. *)
Fixpoint search_down (fuel : nat) (k : Z) (p : Z -> bool) : Z :=
  match fuel with
  | O => k
  | S fuel' => if p k then k else search_down fuel' (k - 1) p
  end.

(** The largest [k] with [p k], for a [p] that holds exactly below some
    integer between -640 and 640. *)
Definition largest (p : Z -> bool) : Z :=
  if p 0 then search_up 640 0 p else search_down 640 (-1) p.

(** The integer [k] with [10^(k-1/2) < m * 2^e < 10^(k+1/2)]: the largest
    with [10^(2k-1) < m^2 * 2^(2e)]. *)
Definition nearest_log10 (m : positive) (e : Z) : Z :=
  largest (fun k => pow10_ltb (2 * k - 1) (Zpos m ^ 2) (2 * e)).


Definition around_log10 (x : float) : float :=
  match Prim2SF x with
  | S754_nan => nan
  | S754_zero _ => neg_infinity
  | S754_infinity false => infinity
  | S754_infinity true => nan
  | S754_finite true _ _ => nan
  | S754_finite false m e => Py.float_of_int (nearest_log10 m e)
  end.

(** [numpy.where(c, a, b)] at one index. *)
Definition where_ (c : bool) (a b : float) : float := if c then a else b.

End Numpy.

(** ** The routine *)

Module Plots.
Import Py.

Definition limit : Z := 10.

(** Lines 101-103 at one index: the entry of [val] for the entry [v] of
    [inVal], [lim] being [inVal * 0.0 + 10] at that index. *)
Definition val_of (digits : Z) (v : float) : float :=
  let lim := (v * 0.0 + 10)%float in
  let val :=
    (Numpy.around_log10 (abs v) * (-1) + float_of_int digits + 1)%float in
  let val := Numpy.where_ (val <? lim)%float val lim in
  let val := Numpy.where_ (- lim <? val)%float val (- lim)%float in
  val.

(** Lines 101-103 at one index as they are written, with [numpy.log10],
    the binary64 logarithm of the C library, as the parameter [log10];
    [numpy.around] has its default [decimals=0].  [val_of] is [val_with]
    at the idealised logarithm ([val_of_val_with] below). *)
Definition val_with (log10 : float -> float) (digits : Z) (v : float)
  : float :=
  let lim := (v * 0.0 + 10)%float in
  let val :=
    (Numpy.around (log10 (abs v)) 0 * (-1) + float_of_int digits + 1)%float in
  let val := Numpy.where_ (val <? lim)%float val lim in
  let val := Numpy.where_ (- lim <? val)%float val (- lim)%float in
  val.

(** Lines 105-106: [for i in range(len(inVal)): output[i] = ...]. *)
Fixpoint round_each (inVal val : list float) (idx : list nat)
         (output : list float) : result (list float) :=
  match idx with
  | [] => Ok output
  | i :: idx' =>
      x <- getitem inVal i ;;
      d <- getitem val i ;;
      decimals <- int d ;;
      output' <- setitem output i (Numpy.around x decimals) ;;
      round_each inVal val idx' output'
  end.

(** The loop body, lines 100-107, for the value of [digits] after its
    increment. *)
Definition attempt (inVal : list float) (digits : Z) : result (list float) :=
  let val := map (val_of digits) inVal in
  let output := repeat 0%float (length inVal) in
  output <- round_each inVal val (seq 0 (length inVal)) output ;;
  Ok (Numpy.unique output).

(** The [while] loop, lines 99-107, on the pair [(output, digits)];
    [None] when [fuel] iterations did not reach the exit. *)
Fixpoint while_loop (fuel : nat) (inVal output : list float) (digits : Z)
  : option (result (list float * Z)) :=
  if (length output <? length inVal)%nat && (digits <? limit) then
    match fuel with
    | O => None
    | S fuel' =>
        let digits := digits + 1 in
        match attempt inVal digits with
        | Ok output => while_loop fuel' inVal output digits
        | Raise e => Some (Raise e)
        end
    end
  else Some (Ok (output, digits)).

(** [inVal] of line 91. *)
Definition inVal_of (values : list float) : list float :=
  Numpy.unique (Numpy.sort values).

(** [_plotRound] together with the final value of [digits]. *)
Definition _plotRound_run (fuel : nat) (values : list float)
  : option (result (list float * Z)) :=
  let inVal := inVal_of values in
  let output := map (fun x => (x * 0.0)%float) (tl inVal) in
  let digits := -1 in
  while_loop fuel inVal output digits.

(** [PropertyPlot._plotRound(values)]; eleven iterations always reach the
    exit of the loop ([plotRound_run_total] below). *)
Definition _plotRound (values : list float) : option (result (list float)) :=
  match _plotRound_run 11 values with
  | None => None
  | Some (Ok (output, _)) => Some (Ok output)
  | Some (Raise e) => Some (Raise e)
  end.

(** *** [calc_isolines]

    The parts of the package the method calls ([IsoLine] and the methods
    of [BasePlot]) are not among the sources: they are the variables of the
    section. *)

Section CalcIsolines.

Variable IsoLine : Type.
(** The value type of the inner dictionaries of [IsoLine.XY_SWITCH]. *)
Variable xy : Type.

(** A dictionary with integer keys, in insertion order. *)
Definition dict (V : Type) : Type := list (Z * V).

Fixpoint dict_get {V : Type} (d : dict V) (k : Z) : option V :=
  match d with
  | [] => None
  | (k', v) :: d' => if k' =? k then Some v else dict_get d' k
  end.

Fixpoint dict_set {V : Type} (d : dict V) (k : Z) (v : V) : dict V :=
  match d with
  | [] => [(k, v)]
  | (k', v') :: d' =>
      if k' =? k then (k', v) :: d' else (k', v') :: dict_set d' k v
  end.

Record PropertyPlot : Type := {
  _x_index : Z;
  _y_index : Z;
  _isolines : dict (list IsoLine)
}.

Definition set_isolines (self : PropertyPlot) (k : Z)
           (lines : list IsoLine) : PropertyPlot :=
  {| _x_index := _x_index self;
     _y_index := _y_index self;
     _isolines := dict_set (_isolines self) k lines |}.

Variable XY_SWITCH : dict (dict (option xy)).
Variable iT : Z.
(** The properties [self.x_index] and [self.y_index]. *)
Variable x_index y_index : PropertyPlot -> Z.
(** [self._get_axis_limits(x, y)], and [self._get_axis_limits()] for
    [None]. *)
Variable _get_axis_limits : PropertyPlot -> option (Z * Z) -> list float.
(** [self.generate_ranges(itype, imin, imax, num)]. *)
Variable generate_ranges :
  PropertyPlot -> Z -> float -> float -> option Z -> list float.
(** [IsoLine(iso_type, x, y, value=dim.to_SI(v), state=self._state)]
    after [calc_range(ixrange, iyrange)] and [sanitize_data()]. *)
Variable new_line :
  PropertyPlot -> Z -> float -> list float -> list float -> IsoLine.

(** The first argument of [calc_isolines]: ['all'] or a property index. *)
Inductive iso_key := all | index (i : Z).

(** What a call leaves: [None] if a loop ran out of iterations, else
    the result and the plot object as the call left it. *)
Definition outcome : Type := option (result unit * PropertyPlot).

(** [self._plotRound(values)]: nothing of [self] is read or written. *)
Definition _plotRound_method (self : PropertyPlot) (values : list float)
  : option (result (list float)) * PropertyPlot :=
  (_plotRound values, self).

(** Lines 117-124. *)
Definition check_range (iso_range : option (list float)) (num : option Z)
  : result (list float) :=
  match iso_range with
  | None => Raise ValueError
  | Some r =>
      if (length r =? 1)%nat
         && negb match num with Some n => n =? 1 | None => false end
      then Raise ValueError
      else if (length r =? 2)%nat
              && match num with None => true | Some _ => false end
           then Raise ValueError
           else Ok r
  end.

(** Lines 150-153: [lines] grows by one isoline per index. *)
Fixpoint append_lines (self : PropertyPlot) (iso_type : Z)
         (iso_range ixrange iyrange : list float) (idx : list nat)
         (lines : list IsoLine) : result unit * list IsoLine :=
  match idx with
  | [] => (Ok tt, lines)
  | i :: idx' =>
      match getitem iso_range i with
      | Ok v =>
          append_lines self iso_type iso_range ixrange iyrange idx'
            (lines ++ [new_line self iso_type v ixrange iyrange])
      | Raise e => (Raise e, lines)
      end
  end.

(** Lines 134-155, for an [iso_type] other than ['all'].  A list found
    in [self.isolines] is extended in place, so the isolines appended
    before an exception stay in the plot object. *)
Definition calc_lines (self : PropertyPlot) (iso_type : Z)
           (iso_range : list float) (num : option Z) (rounding : bool)
           (points : Z) : outcome :=
  let iso_range := Numpy.sort (Numpy.unique iso_range) in
  let iso_range :=
    match iso_range with
    | [lo; hi] => generate_ranges self iso_type lo hi num
    | _ => iso_range
    end in
  match (if rounding then fst (_plotRound_method self iso_range)
         else Some (Ok iso_range)) with
  | None => None
  | Some (Raise e) => Some (Raise e, self)
  | Some (Ok iso_range) =>
      let limits := _get_axis_limits self None in
      match (l0 <- getitem limits 0%nat ;; l1 <- getitem limits 1%nat ;;
             l2 <- getitem limits 2%nat ;; l3 <- getitem limits 3%nat ;;
             Ok (l0, l1, l2, l3)) with
      | Raise e => Some (Raise e, self)
      | Ok (l0, l1, l2, l3) =>
          let ixrange :=
            generate_ranges self (_x_index self) l0 l1 (Some points) in
          let iyrange :=
            generate_ranges self (_y_index self) l2 l3 (Some points) in
          let stored := dict_get (_isolines self) iso_type in
          let lines := match stored with Some l => l | None => [] end in
          match num with
          | None => Some (Raise TypeError, self)
          | Some n =>
              match append_lines self iso_type iso_range ixrange iyrange
                      (seq 0 (Z.to_nat n)) lines with
              | (Ok _, lines) =>
                  Some (Ok tt, set_isolines self iso_type lines)
              | (Raise e, lines) =>
                  Some (Raise e,
                        match stored with
                        | Some _ => set_isolines self iso_type lines
                        | None => self
                        end)
              end
          end
      end
  end.

(** A call with an [iso_type] other than ['all']. *)
Definition calc_isolines_index (self : PropertyPlot) (iso_type : Z)
           (iso_range : option (list float)) (num : option Z)
           (rounding : bool) (points : Z) : outcome :=
  match check_range iso_range num with
  | Raise e => Some (Raise e, self)
  | Ok r => calc_lines self iso_type r num rounding points
  end.

(** Lines 127-131: the loop over [IsoLine.XY_SWITCH]. *)
Fixpoint calc_all (self : PropertyPlot) (switch : dict (dict (option xy)))
         (num : option Z) (rounding : bool) (points : Z) : outcome :=
  match switch with
  | [] => Some (Ok tt, self)
  | (i_type, entries) :: switch' =>
      match dict_get entries (y_index self * 10 + x_index self) with
      | Some (Some _) =>
          let limits := _get_axis_limits self (Some (i_type, iT)) in
          match (l0 <- getitem limits 0%nat ;; l1 <- getitem limits 1%nat ;;
                 Ok [l0; l1]) with
          | Raise e => Some (Raise e, self)
          | Ok r =>
              match calc_isolines_index self i_type (Some r) num rounding
                      points with
              | Some (Ok _, self') =>
                  calc_all self' switch' num rounding points
              | stop => stop
              end
          end
      | _ => calc_all self switch' num rounding points
      end
  end.

(** [PropertyPlot.calc_isolines(iso_type, iso_range, num, rounding,
    points)]. *)
Definition calc_isolines (self : PropertyPlot) (iso_type : iso_key)
           (iso_range : option (list float)) (num : option Z)
           (rounding : bool) (points : Z) : outcome :=
  match check_range iso_range num with
  | Raise e => Some (Raise e, self)
  | Ok r =>
      match iso_type with
      | all => calc_all self XY_SWITCH num rounding points
      | index i => calc_lines self i r num rounding points
      end
  end.

End CalcIsolines.

End Plots.
Import Py Plots.

(** ** Vocabulary of the statements *)

(** Every entry is a finite float: no NaN, no infinity. *)
Definition all_finite (l : list float) : Prop :=
  Forall (fun v => is_finite v = true) l.

Definition not_nan (x : float) : Prop := Prim2SF x <> S754_nan.

Definition sf_finite (x : spec_float) : Prop :=
  exists s m e, x = S754_finite s m e.

(** A finite float other than the zeros. *)
Definition finite_nonzero (x : float) : Prop := sf_finite (Prim2SF x).

(** The comparison of two floats, [None] when one is NaN. *)
Definition cmp (a b : float) : option comparison :=
  SFcompare (Prim2SF a) (Prim2SF b).

(** The comparison of [a] with [c] from those of [a] with [b] and [b] with
    [c], none of them [Gt]. *)
Definition comb (a b : comparison) : comparison :=
  match a with Eq => b | _ => a end.

(** numpy's sorting order, [a <= b]: [b] does not sort before [a]. *)
Definition np_le (a b : float) : Prop := Numpy.lt b a = false.

(** Ascending, and different under [!=]. *)
Definition np_lt_strict (a b : float) : Prop :=
  np_le a b /\ (b =? a)%float = false.

(** Pairwise different under [!=]. *)
Definition distinct (l : list float) : Prop :=
  ForallOrdPairs (fun a b => (a =? b)%float = false) l.

(** [z] brought into [-10, 10], as the two [where] of lines 102-103 do. *)
Definition clamp (z : Z) : Z := Z.max (-10) (Z.min 10 z).

(** [val] of lines 101-103 from the rounded logarithm [a], for [lim = 10]. *)
Definition val_from (a : float) (digits : Z) : float :=
  let val := (a * (-1) + float_of_int digits + 1)%float in
  let val := Numpy.where_ (val <? 10)%float val 10%float in
  Numpy.where_ (- 10 <? val)%float val (- 10)%float.

(** The integers [lo], ..., [lo + n - 1]. *)
Definition zrange (lo : Z) (n : nat) : list Z :=
  map (fun i => lo + Z.of_nat i) (seq 0 n).

(** [int(x)] returns [z]. *)
Definition int_is (x : float) (z : Z) : bool :=
  match int x with
  | Ok z' => z' =? z
  | Raise _ => false
  end.

(** [int(val[i])] does not raise for the entry [v]. *)
Definition int_ok (digits : Z) (v : float) : Prop :=
  exists k, int (val_of digits v) = Ok k.

(** The decimal place [int(val[i])] and the rounded value the loop body
    computes for an entry [v] at a level of [digits]. *)
Definition place (digits : Z) (v : float) : Z :=
  match int (val_of digits v) with
  | Ok k => k
  | Raise _ => 0
  end.

Definition rounded (digits : Z) (v : float) : float :=
  Numpy.around v (place digits v).

(** The deduplicated roundings at one level of [digits]: what one
    iteration leaves in [output] when nothing raises. *)
Definition pass (inVal : list float) (digits : Z) : list float :=
  Numpy.unique (map (rounded digits) inVal).

(** What the loop leaves in [(out, D)] when started from [(output, digits)]. *)
Record loop_exit (inVal output : list float) (digits : Z)
       (out : list float) (D : Z) : Prop := {
  exit_range : digits <= D <= 10;
  exit_same : D = digits -> out = output;
  exit_pass : digits < D -> out = pass inVal D;
  exit_entry : digits < D -> (length output < length inVal)%nat;
  exit_retry : forall d, digits < d < D ->
                         (length (pass inVal d) < length inVal)%nat;
  exit_cond : (length out < length inVal)%nat -> D = 10
}.

(** The integer nearest to [log10 |v|] and the floor of [log10 |v|], for a
    finite [v] other than zero. *)
Definition nearest_log10_abs (v : float) : option Z :=
  match Prim2SF v with
  | S754_finite _ m e => Some (Numpy.nearest_log10 m e)
  | _ => None
  end.



(** No entry is the negative zero. *)
Definition no_neg_zero (l : list float) : Prop :=
  Forall (fun v => Prim2SF v <> S754_zero true) l.

(** [self.isolines.get(k, [])]: the isolines stored for the property [k]. *)
Definition lines_of {IsoLine : Type} (self : PropertyPlot IsoLine) (k : Z)
  : list IsoLine :=
  match dict_get (_isolines IsoLine self) k with
  | Some l => l
  | None => []
  end.

(** The stages of [calc_isolines] for one property. *)

Section IsoValues.

Variable IsoLine : Type.
Variable generate_ranges :
  PropertyPlot IsoLine -> Z -> float -> float -> option Z -> list float.
Variable new_line :
  PropertyPlot IsoLine -> Z -> float -> list float -> list float -> IsoLine.

(** [iso_range] after lines 134-137: sorted, without repeats, and replaced
    by the generated range when two values are left. *)
Definition iso_values (self : PropertyPlot IsoLine) (iso_type : Z)
           (iso_range : list float) (num : option Z) : list float :=
  let iso_range := Numpy.sort (Numpy.unique iso_range) in
  match iso_range with
  | [lo; hi] => generate_ranges self iso_type lo hi num
  | _ => iso_range
  end.

(** [iso_range] after lines 138-139. *)
Definition rounded_values (self : PropertyPlot IsoLine) (iso_type : Z)
           (iso_range : list float) (num : option Z) (rounding : bool)
  : option (result (list float)) :=
  if rounding then _plotRound (iso_values self iso_type iso_range num)
  else Some (Ok (iso_values self iso_type iso_range num)).

(** The isolines of lines 144-153 for the values [q], [l0], ..., [l3]
    being the axis limits. *)
Definition lines_for (self : PropertyPlot IsoLine) (iso_type : Z)
           (l0 l1 l2 l3 : float) (points : Z) (q : list float)
  : list IsoLine :=
  map (fun v =>
         new_line self iso_type v
           (generate_ranges self (_x_index IsoLine self) l0 l1 (Some points))
           (generate_ranges self (_y_index IsoLine self) l2 l3 (Some points)))
      q.

End IsoValues.

(** * Facts on binary64 comparisons *)

Section SpecOrder.

Ltac fold_pos_compare :=
  repeat match goal with
    | |- context [Pos.compare_cont Eq ?p ?q] =>
        change (Pos.compare_cont Eq p q) with (Pos.compare p q)
    | H : context [Pos.compare_cont Eq ?p ?q] |- _ =>
        change (Pos.compare_cont Eq p q) with (Pos.compare p q) in H
    end.

Ltac cmp_cases :=
  fold_pos_compare;
  repeat (match goal with
          | |- context [Z.compare ?a ?b] => destruct (Z.compare_spec a b)
          | H : context [Z.compare ?a ?b] |- _ =>
              destruct (Z.compare_spec a b)
          | |- context [Pos.compare ?a ?b] =>
              destruct (Pos.compare_spec a b)
          | H : context [Pos.compare ?a ?b] |- _ =>
              destruct (Pos.compare_spec a b)
          end; simpl in *; try congruence; try lia).

Lemma SFcompare_antisym (x y : spec_float) :
  SFcompare y x = option_map CompOpp (SFcompare x y).
Proof.
  destruct x as [sx|sx| |sx mx ex], y as [sy|sy| |sy my ey];
    try destruct sx; try destruct sy; simpl; try reflexivity; cmp_cases.
Qed.

Lemma SFcompare_refl (x : spec_float) :
  x <> S754_nan -> SFcompare x x = Some Eq.
Proof.
  destruct x as [s|s| |s m e]; try destruct s; simpl; try congruence;
    intros _; fold_pos_compare;
    rewrite Z.compare_refl, Pos.compare_refl; reflexivity.
Qed.

Lemma SFcompare_trans (x y z : spec_float) (a b : comparison) :
  SFcompare x y = Some a -> SFcompare y z = Some b ->
  a <> Gt -> b <> Gt -> SFcompare x z = Some (comb a b).
Proof.
  destruct x as [sx|sx| |sx mx ex], y as [sy|sy| |sy my ey],
           z as [sz|sz| |sz mz ez];
    try destruct sx; try destruct sy; try destruct sz; simpl;
    intros Hxy Hyz Ha Hb;
    try discriminate;
    try (injection Hxy as <-); try (injection Hyz as <-);
    try congruence; try reflexivity; cmp_cases.
Qed.

End SpecOrder.

(** Comparisons of floats through their specification. *)

Lemma ltb_cmp (a b : float) :
  (a <? b)%float = match cmp a b with Some Lt => true | _ => false end.
Proof. rewrite ltb_spec. reflexivity. Qed.

Lemma eqb_cmp (a b : float) :
  (a =? b)%float = match cmp a b with Some Eq => true | _ => false end.
Proof. rewrite eqb_spec. reflexivity. Qed.

Lemma cmp_antisym (a b : float) : cmp b a = option_map CompOpp (cmp a b).
Proof. apply SFcompare_antisym. Qed.

Lemma cmp_trans (a b c : float) (x y : comparison) :
  cmp a b = Some x -> cmp b c = Some y -> x <> Gt -> y <> Gt ->
  cmp a c = Some (comb x y).
Proof. apply SFcompare_trans. Qed.

Lemma cmp_nan_l (a b : float) : Prim2SF a = S754_nan -> cmp a b = None.
Proof. unfold cmp. intros ->. reflexivity. Qed.

Lemma cmp_nan_r (a b : float) : Prim2SF b = S754_nan -> cmp a b = None.
Proof. unfold cmp. intros ->. destruct (Prim2SF a); reflexivity. Qed.

Lemma cmp_some (a b : float) :
  Prim2SF a <> S754_nan -> Prim2SF b <> S754_nan -> exists c, cmp a b = Some c.
Proof.
  unfold cmp. destruct (Prim2SF a), (Prim2SF b); simpl; intros Ha Hb;
    try congruence; eauto.
Qed.

Lemma cmp_some_inv (a b : float) (c : comparison) :
  cmp a b = Some c -> Prim2SF a <> S754_nan /\ Prim2SF b <> S754_nan.
Proof.
  unfold cmp. destruct (Prim2SF a), (Prim2SF b); simpl; intros H;
    split; congruence.
Qed.

Lemma cmp_refl (a : float) : Prim2SF a <> S754_nan -> cmp a a = Some Eq.
Proof. apply SFcompare_refl. Qed.

Lemma is_nan_spec (a : float) : is_nan a = true <-> Prim2SF a = S754_nan.
Proof.
  unfold is_nan. rewrite eqb_cmp. split.
  - intros H. destruct (Prim2SF a) eqn:E; try reflexivity;
      rewrite cmp_refl in H by congruence; discriminate.
  - intros E. rewrite cmp_nan_l by assumption. reflexivity.
Qed.

Lemma is_nan_false (a : float) : is_nan a = false <-> Prim2SF a <> S754_nan.
Proof.
  rewrite <- is_nan_spec. destruct (is_nan a); split; congruence.
Qed.

Lemma np_lt_iff (a b : float) :
  Numpy.lt a b = true <->
  cmp a b = Some Lt \/ (Prim2SF b = S754_nan /\ Prim2SF a <> S754_nan).
Proof.
  unfold Numpy.lt. rewrite orb_true_iff, andb_true_iff, ltb_cmp.
  fold (is_nan b). rewrite is_nan_spec.
  assert (Ha : (a =? a)%float = true <-> Prim2SF a <> S754_nan).
  { rewrite <- is_nan_false. unfold is_nan.
    destruct (a =? a)%float; simpl; split; congruence. }
  rewrite Ha. split.
  - intros [H|H]; [left|right; exact H].
    destruct (cmp a b) as [[]|]; congruence.
  - intros [H|H]; [left|right; exact H]. rewrite H. reflexivity.
Qed.

Lemma np_le_iff (a b : float) :
  np_le a b <->
  Prim2SF b = S754_nan \/ exists c, cmp a b = Some c /\ c <> Gt.
Proof.
  unfold np_le. split.
  - intros H.
    destruct (Prim2SF b) eqn:Eb; try (left; reflexivity); right;
      (destruct (Prim2SF a) eqn:Ea;
       [| | exfalso; apply not_true_iff_false in H; apply H; apply np_lt_iff;
            right; split; [exact Ea | congruence] |]);
      (destruct (cmp_some a b) as [c Hc]; [congruence | congruence |]);
      exists c; (split; [exact Hc|]); intros ->;
      apply not_true_iff_false in H; apply H; apply np_lt_iff; left;
      rewrite cmp_antisym, Hc; reflexivity.
  - intros [Hb | [c [Hc Hgt]]]; apply not_true_iff_false; intros H;
      apply np_lt_iff in H; destruct H as [H | [H1 H2]].
    + rewrite cmp_nan_l in H by assumption. discriminate.
    + congruence.
    + rewrite cmp_antisym, Hc in H. destruct c; simpl in H; congruence.
    + apply cmp_some_inv in Hc. tauto.
Qed.

Lemma np_lt_asym (a b : float) : Numpy.lt a b = true -> np_le a b.
Proof.
  intros H. apply np_lt_iff in H. apply np_le_iff.
  destruct H as [H | [H _]]; [right | left; exact H].
  exists Lt. split; [exact H | discriminate].
Qed.

Lemma np_le_trans (a b c : float) : np_le a b -> np_le b c -> np_le a c.
Proof.
  rewrite !np_le_iff. intros Hab [Hc | [y [Hy Hgy]]]; [left; exact Hc|].
  right. destruct Hab as [Hb | [x [Hx Hgx]]].
  - rewrite cmp_nan_l in Hy by assumption. discriminate.
  - exists (comb x y). split.
    + apply cmp_trans with b; assumption.
    + destruct x, y; simpl; congruence.
Qed.

Lemma eqb_sandwich (a p c : float) :
  (c =? a)%float = true -> np_le a p -> np_le p c -> (c =? p)%float = true.
Proof.
  rewrite !eqb_cmp, !np_le_iff. intros Hca Hap Hpc.
  destruct (cmp c a) as [[]|] eqn:E; try discriminate.
  assert (E' : cmp a c = Some Eq) by (rewrite cmp_antisym, E; reflexivity).
  destruct (cmp_some_inv _ _ _ E) as [Hc Ha].
  destruct Hpc as [Hpc | [y [Hy Hgy]]]; [congruence|].
  destruct Hap as [Hp | [x [Hx Hgx]]].
  - rewrite cmp_nan_l in Hy by assumption. discriminate.
  - pose proof (cmp_trans _ _ _ _ _ Hx Hy Hgx Hgy) as Ht.
    rewrite E' in Ht. injection Ht as Ht.
    assert (y = Eq) by (destruct x, y; simpl in Ht; congruence). subst y.
    rewrite cmp_antisym, Hy. reflexivity.
Qed.

Lemma eqb_sym (a b : float) : (a =? b)%float = (b =? a)%float.
Proof.
  rewrite !eqb_cmp, (cmp_antisym a b).
  destruct (cmp a b) as [[]|]; reflexivity.
Qed.

Lemma eqb_trans (a b c : float) :
  (a =? b)%float = true -> (b =? c)%float = true -> (a =? c)%float = true.
Proof.
  rewrite !eqb_cmp. intros Hab Hbc.
  destruct (cmp a b) as [[]|] eqn:E1; try discriminate.
  destruct (cmp b c) as [[]|] eqn:E2; try discriminate.
  rewrite (cmp_trans _ _ _ _ _ E1 E2) by discriminate. reflexivity.
Qed.

Lemma np_le_neq_ltb (a b : float) :
  np_le a b -> (b =? a)%float = false -> is_nan b = false ->
  (a <? b)%float = true.
Proof.
  rewrite np_le_iff, is_nan_false, eqb_cmp, ltb_cmp, (cmp_antisym a b).
  intros [Hb | [c [Hc Hg]]] Hne Hnan; [congruence|].
  rewrite Hc in *. destruct c; simpl in *; congruence.
Qed.

Lemma ltb_trans (a b c : float) :
  (a <? b)%float = true -> (b <? c)%float = true -> (a <? c)%float = true.
Proof.
  rewrite !ltb_cmp. intros Hab Hbc.
  destruct (cmp a b) as [[]|] eqn:E1; try discriminate.
  destruct (cmp b c) as [[]|] eqn:E2; try discriminate.
  rewrite (cmp_trans _ _ _ _ _ E1 E2) by discriminate. reflexivity.
Qed.


(** * Binary64 arithmetic never produces NaN from finite operands *)

Section NoNaN.












End NoNaN.








Lemma In_zrange (lo k : Z) (n : nat) :
  lo <= k < lo + Z.of_nat n -> In k (zrange lo n).
Proof.
  intros H. unfold zrange. apply in_map_iff.
  exists (Z.to_nat (k - lo)). split; [lia|]. apply in_seq. lia.
Qed.




(** * The decimal place of a finite value *)

Lemma is_finite_cases (v : float) :
  is_finite v = true ->
  (exists s, Prim2SF v = S754_zero s) \/ finite_nonzero v.
Proof.
  unfold is_finite, is_infinity, finite_nonzero, sf_finite.
  rewrite negb_true_iff, orb_false_iff, is_nan_false, eqb_spec, abs_spec.
  intros [Hn Hi]. destruct (Prim2SF v) as [s|s| |s m e]; eauto.
  - simpl in Hi. vm_compute in Hi. discriminate.
  - congruence.
Qed.

Lemma is_finite_not_nan (v : float) : is_finite v = true -> not_nan v.
Proof.
  intros H. unfold not_nan.
  destruct (is_finite_cases v H) as [[s E] | (s & m & e & E)]; congruence.
Qed.

(** [inVal * 0.0 + 10] is 10 at a finite entry. *)
Lemma lim_finite (v : float) :
  is_finite v = true -> (v * 0.0 + 10)%float = 10%float.
Proof.
  intros H. apply Prim2SF_inj. rewrite add_spec, mul_spec.
  destruct (is_finite_cases v H) as [[s E] | (s & m & e & E)]; rewrite E;
    reflexivity.
Qed.

Lemma val_of_finite (digits : Z) (v : float) :
  is_finite v = true ->
  val_of digits v = val_from (Numpy.around_log10 (abs v)) digits.
Proof.
  intros H. unfold val_of, val_from. rewrite (lim_finite v H). reflexivity.
Qed.

Lemma around_log10_abs_zero (v : float) (s : bool) :
  Prim2SF v = S754_zero s -> Numpy.around_log10 (abs v) = neg_infinity.
Proof.
  intros E. unfold Numpy.around_log10. rewrite abs_spec, E. reflexivity.
Qed.

Lemma around_log10_abs_finite (v : float) (s : bool) (m : positive) (e : Z) :
  Prim2SF v = S754_finite s m e ->
  Numpy.around_log10 (abs v) = float_of_int (Numpy.nearest_log10 m e).
Proof.
  intros E. unfold Numpy.around_log10. rewrite abs_spec, E. reflexivity.
Qed.

Lemma search_up_range (p : Z -> bool) (fuel : nat) :
  forall k, k <= Numpy.search_up fuel k p <= k + Z.of_nat fuel.
Proof.
  induction fuel as [|fuel IH]; intros k; simpl Numpy.search_up.
  - lia.
  - destruct (p (k + 1)); [specialize (IH (k + 1))|]; lia.
Qed.

Lemma search_down_range (p : Z -> bool) (fuel : nat) :
  forall k, k - Z.of_nat fuel <= Numpy.search_down fuel k p <= k.
Proof.
  induction fuel as [|fuel IH]; intros k; simpl Numpy.search_down.
  - lia.
  - destruct (p k); [|specialize (IH (k - 1))]; lia.
Qed.

Lemma largest_range (p : Z -> bool) : -641 <= Numpy.largest p <= 640.
Proof.
  unfold Numpy.largest. destruct (p 0).
  - pose proof (search_up_range p 640 0). lia.
  - pose proof (search_down_range p 640 (-1)). lia.
Qed.

Lemma int_is_true (x : float) (z : Z) : int_is x z = true -> int x = Ok z.
Proof.
  unfold int_is. destruct (int x); [|discriminate].
  intros H. apply Z.eqb_eq in H. congruence.
Qed.

Lemma val_from_table :
  forallb (fun k =>
    forallb (fun d => int_is (val_from (float_of_int k) d)
                             (clamp (- k + d + 1)))
            (zrange 0 11))
    (zrange (-641) 1282) = true.
Proof. vm_compute. reflexivity. Qed.

Lemma val_from_zero_table :
  forallb (fun d => int_is (val_from neg_infinity d) 10) (zrange 0 11) = true.
Proof. vm_compute. reflexivity. Qed.

Lemma int_val_from (k digits : Z) :
  -641 <= k <= 640 -> 0 <= digits <= 10 ->
  int (val_from (float_of_int k) digits) = Ok (clamp (- k + digits + 1)).
Proof.
  intros Hk Hd. apply int_is_true.
  pose proof val_from_table as T. rewrite forallb_forall in T.
  assert (Hin : In k (zrange (-641) 1282)) by (apply In_zrange; lia).
  specialize (T k Hin). rewrite forallb_forall in T.
  apply T, In_zrange. lia.
Qed.

Lemma int_val_from_zero (digits : Z) :
  0 <= digits <= 10 -> int (val_from neg_infinity digits) = Ok 10.
Proof.
  intros Hd. apply int_is_true.
  pose proof val_from_zero_table as T. rewrite forallb_forall in T.
  apply T, In_zrange. lia.
Qed.

(** The decimal place of a nonzero finite value. *)
Lemma int_val_of_finite (digits : Z) (v : float) (s : bool) (m : positive)
      (e : Z) :
  Prim2SF v = S754_finite s m e -> 0 <= digits <= 10 ->
  int (val_of digits v) = Ok (clamp (- Numpy.nearest_log10 m e + digits + 1)).
Proof.
  intros E Hd.
  assert (Hf : is_finite v = true).
  { unfold is_finite, is_infinity, is_nan.
    rewrite !eqb_spec, abs_spec, E. simpl.
    unfold SFeqb. rewrite SFcompare_refl by discriminate. reflexivity. }
  rewrite (val_of_finite _ _ Hf), (around_log10_abs_finite _ _ _ _ E).
  apply int_val_from; [apply largest_range | exact Hd].
Qed.

(** The decimal place of a zero. *)
Lemma int_val_of_zero (digits : Z) (v : float) (s : bool) :
  Prim2SF v = S754_zero s -> 0 <= digits <= 10 ->
  int (val_of digits v) = Ok 10.
Proof.
  intros E Hd.
  assert (Hf : is_finite v = true).
  { unfold is_finite, is_infinity, is_nan.
    rewrite !eqb_spec, abs_spec, E. reflexivity. }
  rewrite (val_of_finite _ _ Hf), (around_log10_abs_zero _ _ E).
  apply int_val_from_zero, Hd.
Qed.

Lemma clamp_range (z : Z) : -10 <= clamp z <= 10.
Proof. unfold clamp. lia. Qed.

Lemma int_val_of_ok (digits : Z) (v : float) :
  is_finite v = true -> 0 <= digits <= 10 ->
  exists k, int (val_of digits v) = Ok k /\ -10 <= k <= 10.
Proof.
  intros Hf Hd.
  destruct (is_finite_cases v Hf) as [[s E] | (s & m & e & E)].
  - exists 10. split; [eapply int_val_of_zero; eauto | lia].
  - eexists. split; [eapply int_val_of_finite; eauto | apply clamp_range].
Qed.

(** * The rounded logarithm is the nearest integer *)

Section NearestLog10.

Lemma pow10_ltb_spec (j n s : Z) :
  Numpy.pow10_ltb j n s
  = (10 ^ Z.max j 0 * 2 ^ Z.max (- s) 0
     <? n * 10 ^ Z.max (- j) 0 * 2 ^ Z.max s 0).
Proof.
  unfold Numpy.pow10_ltb.
  destruct (Z.leb_spec 0 j), (Z.leb_spec 0 s);
    rewrite ?Z.shiftl_mul_pow2 by lia;
    repeat match goal with
      | |- context [Z.max ?a ?b] =>
          first [rewrite (Z.max_l a b) by lia | rewrite (Z.max_r a b) by lia]
      end;
    rewrite ?Z.pow_0_r, ?Z.mul_1_r, ?Z.mul_1_l; try reflexivity;
    f_equal; ring.
Qed.

Variable p : Z -> bool.

Lemma search_up_spec (fuel : nat) :
  forall k, p k = true ->
            p (Numpy.search_up fuel k p) = true
            /\ (Numpy.search_up fuel k p < k + Z.of_nat fuel ->
                p (Numpy.search_up fuel k p + 1) = false).
Proof.
  induction fuel as [|fuel IH]; intros k Hk; cbn [Numpy.search_up].
  - split; [exact Hk | lia].
  - destruct (p (k + 1)) eqn:E.
    + destruct (IH (k + 1) E) as [H1 H2]. split; [exact H1|].
      intros H. apply H2. lia.
    + split; [exact Hk | intros _; exact E].
Qed.

Lemma search_down_spec (fuel : nat) :
  forall k, p (k + 1) = false ->
            k - Z.of_nat fuel < Numpy.search_down fuel k p ->
            p (Numpy.search_down fuel k p) = true
            /\ p (Numpy.search_down fuel k p + 1) = false.
Proof.
  induction fuel as [|fuel IH]; intros k Hk; cbn [Numpy.search_down].
  - lia.
  - destruct (p k) eqn:E; [intros _; split; assumption|].
    intros H. apply IH; [|lia].
    replace (k - 1 + 1) with k by lia. exact E.
Qed.

Lemma largest_spec :
  -641 < Numpy.largest p < 640 ->
  p (Numpy.largest p) = true /\ p (Numpy.largest p + 1) = false.
Proof.
  unfold Numpy.largest. destruct (p 0) eqn:E; intros H.
  - destruct (search_up_spec 640 0 E) as [H1 H2].
    split; [exact H1 | apply H2; lia].
  - apply search_down_spec; [exact E | lia].
Qed.

End NearestLog10.

(** [k = nearest_log10 m e] lies strictly between [log10 (m * 2^e) - 1/2]
    and [log10 (m * 2^e) + 1/2]: on squares,
    [10^(2k-1) < m^2 * 2^(2e) <= 10^(2k+1)]. *)
Lemma nearest_log10_spec (m : positive) (e : Z) :
  -641 < Numpy.nearest_log10 m e < 640 ->
  Numpy.pow10_ltb (2 * Numpy.nearest_log10 m e - 1) (Zpos m ^ 2) (2 * e)
  = true
  /\ Numpy.pow10_ltb (2 * Numpy.nearest_log10 m e + 1) (Zpos m ^ 2) (2 * e)
     = false.
Proof.
  intros H. unfold Numpy.nearest_log10 in *.
  destruct (largest_spec _ H) as [H1 H2]. split; [exact H1|].
  rewrite <- H2. f_equal. lia.
Qed.

(** The search does not run out of steps on a binary64 number. *)

Section LargestBounds.

Variable p : Z -> bool.
Hypothesis p_down : forall j k, j <= k -> p k = true -> p j = true.

Lemma search_down_exhausted (fuel : nat) :
  forall k, Numpy.search_down fuel k p = k - Z.of_nat fuel ->
            forall j, k - Z.of_nat fuel < j <= k -> p j = false.
Proof.
  induction fuel as [|fuel IH]; intros k H j Hj; [lia|].
  cbn [Numpy.search_down] in H.
  destruct (p k) eqn:E; [lia|].
  destruct (Z.eq_dec j k) as [->|Hne]; [exact E|].
  apply (IH (k - 1)); lia.
Qed.

Lemma largest_between (lo hi : Z) :
  -640 <= lo -> hi <= 640 -> p lo = true -> p hi = false ->
  lo <= Numpy.largest p < hi.
Proof.
  intros Hlo Hhi Plo Phi.
  assert (Hlt : lo < hi).
  { destruct (Z.lt_ge_cases lo hi) as [H|H]; [exact H|].
    rewrite (p_down hi lo H Plo) in Phi. discriminate. }
  pose proof (largest_range p) as R.
  destruct (Z.eq_dec (Numpy.largest p) 640) as [E640|N640].
  - exfalso. unfold Numpy.largest in E640.
    destruct (p 0) eqn:P0.
    + destruct (search_up_spec p 640 0 P0) as [H _]. rewrite E640 in H.
      rewrite (p_down hi 640 Hhi H) in Phi. discriminate.
    + pose proof (search_down_range p 640 (-1)). lia.
  - destruct (Z.eq_dec (Numpy.largest p) (-641)) as [E641|N641].
    + exfalso. unfold Numpy.largest in E641.
      destruct (p 0) eqn:P0.
      * pose proof (search_up_range p 640 0). lia.
      * assert (lo < 0).
        { destruct (Z.lt_ge_cases lo 0) as [H|H]; [exact H|].
          rewrite (p_down 0 lo H Plo) in P0. discriminate. }
        rewrite (search_down_exhausted 640 (-1) E641 lo) in Plo by lia.
        discriminate.
    + destruct (largest_spec p) as [H1 H2]; [lia|]. split.
      * destruct (Z.lt_ge_cases (Numpy.largest p) lo) as [H|H]; [|lia].
        rewrite (p_down (Numpy.largest p + 1) lo) in H2 by (lia || exact Plo).
        discriminate.
      * destruct (Z.lt_ge_cases (Numpy.largest p) hi) as [H|H]; [exact H|].
        rewrite (p_down hi _ H H1) in Phi. discriminate.
Qed.

End LargestBounds.

Lemma pow10_ltb_down (n s : Z) (j k : Z) :
  0 < n -> j <= k ->
  Numpy.pow10_ltb k n s = true -> Numpy.pow10_ltb j n s = true.
Proof.
  intros Hn Hjk. rewrite !pow10_ltb_spec, !Z.ltb_lt.
  set (A := 2 ^ Z.max (- s) 0). set (B := 2 ^ Z.max s 0).
  assert (HA : 0 < A) by (apply Z.pow_pos_nonneg; lia).
  assert (HB : 0 < B) by (apply Z.pow_pos_nonneg; lia).
  intros H.
  assert (Hk : 0 < 10 ^ Z.max k 0) by (apply Z.pow_pos_nonneg; lia).
  assert (Hj : 0 < 10 ^ Z.max j 0) by (apply Z.pow_pos_nonneg; lia).
  assert (Hk' : 0 < 10 ^ Z.max (- k) 0) by (apply Z.pow_pos_nonneg; lia).
  assert (Hj' : 0 < 10 ^ Z.max (- j) 0) by (apply Z.pow_pos_nonneg; lia).
  assert (Hp : 10 ^ Z.max j 0 * 10 ^ Z.max (- k) 0
               <= 10 ^ Z.max k 0 * 10 ^ Z.max (- j) 0).
  { rewrite <- !Z.pow_add_r by lia. apply Z.pow_le_mono_r; lia. }
  apply Z.mul_lt_mono_pos_r with (p := 10 ^ Z.max (- k) 0); [exact Hk'|].
  apply Z.le_lt_trans with (10 ^ Z.max k 0 * A * 10 ^ Z.max (- j) 0).
  - nia.
  - apply Z.lt_le_trans with (n * 10 ^ Z.max (- k) 0 * B * 10 ^ Z.max (- j) 0).
    + apply Z.mul_lt_mono_pos_r; assumption.
    + nia.
Qed.

Lemma digits2_pos_bound (m : positive) : Zpos m < 2 ^ Zpos (digits2_pos m).
Proof.
  induction m as [m IH|m IH|]; cbn [digits2_pos];
    rewrite ?Pos2Z.inj_succ, ?Z.pow_succ_r by lia; lia.
Qed.

Lemma valid_binary_bounds (s : bool) (m : positive) (e : Z) :
  valid_binary (S754_finite s m e) = true ->
  Zpos m < 2 ^ 53 /\ -1074 <= e <= 971.
Proof.
  cbn [SpecFloat.valid_binary]. unfold bounded, canonical_mantissa, fexp.
  rewrite andb_true_iff, Z.eqb_eq, Z.leb_le.
  change (SpecFloat.emin prec emax) with (-1074).
  change (emax - prec) with 971. change prec with 53.
  intros [Hc He].
  assert (Hd : Zpos (digits2_pos m) <= 53) by lia.
  split; [|lia].
  apply Z.lt_le_trans with (2 ^ Zpos (digits2_pos m)).
  - apply digits2_pos_bound.
  - apply Z.pow_le_mono_r; lia.
Qed.

Lemma two_2048_lt : 2 ^ 106 * 2 ^ 1942 < 10 ^ 617.
Proof. apply Z.ltb_lt. vm_compute. reflexivity. Qed.

Lemma two_2148_lt : 2 ^ 2148 < 10 ^ 649.
Proof. apply Z.ltb_lt. vm_compute. reflexivity. Qed.

Lemma below_max (M a b T U : Z) :
  0 < M -> 0 < a -> a <= U -> 1 <= b -> U < T -> a < M * T * b.
Proof.
  intros. assert (T <= M * T) by nia. assert (M * T <= M * T * b) by nia.
  lia.
Qed.

Lemma above_min (M a b V W X : Z) :
  0 < M -> M < V -> 0 < b -> b <= W -> 1 <= a -> V * W < X ->
  M * b <= X * a.
Proof.
  intros. assert (M * b <= V * W) by nia. assert (X <= X * a) by nia. lia.
Qed.

(** For a binary64 number [m * 2^e], [k = nearest_log10 m e] is the
    integer with [10^(2k-1) < m^2 * 2^(2e) <= 10^(2k+1)]: the nearest to
    [log10 (m * 2^e)]. *)
Lemma nearest_log10_exact (v : float) (s : bool) (m : positive) (e : Z) :
  Prim2SF v = S754_finite s m e ->
  -324 <= Numpy.nearest_log10 m e <= 308
  /\ Numpy.pow10_ltb (2 * Numpy.nearest_log10 m e - 1) (Zpos m ^ 2) (2 * e)
     = true
  /\ Numpy.pow10_ltb (2 * Numpy.nearest_log10 m e + 1) (Zpos m ^ 2) (2 * e)
     = false.
Proof.
  intros E. pose proof (Prim2SF_valid v) as V. rewrite E in V.
  destruct (valid_binary_bounds s m e V) as [Hm He].
  assert (Hm2 : 0 < Zpos m ^ 2) by (apply Z.pow_pos_nonneg; lia).
  assert (Hm2' : Zpos m ^ 2 < 2 ^ 106).
  { change (2 ^ 106) with (2 ^ 53 * 2 ^ 53). nia. }
  set (p := fun k => Numpy.pow10_ltb (2 * k - 1) (Zpos m ^ 2) (2 * e)).
  assert (R : -324 <= Numpy.largest p < 309).
  { apply largest_between; try lia.
    - intros j k Hjk. unfold p. apply pow10_ltb_down; lia.
    - unfold p. rewrite pow10_ltb_spec. apply Z.ltb_lt.
      change (2 * -324 - 1) with (-649).
      rewrite (Z.max_r (-649) 0), (Z.max_l (- -649) 0) by lia.
      change (- -649) with 649. rewrite Z.pow_0_r, Z.mul_1_l.
      apply below_max with (U := 2 ^ 2148).
      + exact Hm2.
      + apply Z.pow_pos_nonneg; lia.
      + apply Z.pow_le_mono_r; lia.
      + apply (Z.pow_le_mono_r 2 0); lia.
      + exact two_2148_lt.
    - unfold p. rewrite pow10_ltb_spec. apply Z.ltb_ge.
      change (2 * 309 - 1) with 617.
      rewrite (Z.max_l 617 0), (Z.max_r (Z.opp 617) 0) by lia.
      rewrite Z.pow_0_r, Z.mul_1_r.
      apply above_min with (V := 2 ^ 106) (W := 2 ^ 1942).
      + exact Hm2.
      + exact Hm2'.
      + apply Z.pow_pos_nonneg; lia.
      + apply Z.pow_le_mono_r; lia.
      + apply (Z.pow_le_mono_r 2 0); lia.
      + exact two_2048_lt. }
  fold (Numpy.largest p) in R. change (Numpy.nearest_log10 m e) with
    (Numpy.largest p).
  split; [lia|]. apply nearest_log10_spec.
  change (Numpy.nearest_log10 m e) with (Numpy.largest p). lia.
Qed.

(** * [numpy.sort] and [numpy.unique] *)

Section SortUnique.

Lemma insert_length (x : float) (l : list float) :
  length (Numpy.insert x l) = S (length l).
Proof.
  induction l as [|y l IH]; simpl; [reflexivity|].
  destruct (Numpy.lt y x); simpl; congruence.
Qed.

Lemma sort_length (l : list float) : length (Numpy.sort l) = length l.
Proof.
  induction l as [|x l IH]; simpl; [reflexivity|].
  rewrite insert_length. congruence.
Qed.

Lemma In_insert (x y : float) (l : list float) :
  In y (Numpy.insert x l) <-> y = x \/ In y l.
Proof.
  induction l as [|z l IH]; simpl.
  - intuition congruence.
  - destruct (Numpy.lt z x); simpl; [rewrite IH|]; intuition congruence.
Qed.

Lemma In_sort (y : float) (l : list float) :
  In y (Numpy.sort l) <-> In y l.
Proof.
  induction l as [|x l IH]; simpl; [tauto|].
  rewrite In_insert, IH. intuition congruence.
Qed.


Lemma In_drop_repeats (z : float) (l : list float) :
  forall prev, In z (Numpy.drop_repeats prev l) -> In z l.
Proof.
  induction l as [|y l IH]; intros prev; simpl; [tauto|].
  destruct (negb _); simpl; intros H; [destruct H|]; eauto.
Qed.


Lemma In_unique (z : float) (l : list float) :
  In z (Numpy.unique l) -> In z l.
Proof.
  unfold Numpy.unique. rewrite <- (In_sort z l).
  destruct (Numpy.sort l) as [|x s]; simpl; [tauto|].
  intros [H|H]; [left; exact H | right; eapply In_drop_repeats, H].
Qed.

Lemma unique_nil_inv (l : list float) : Numpy.unique l = [] -> l = [].
Proof.
  unfold Numpy.unique. intros H.
  destruct (Numpy.sort l) eqn:E; [|discriminate].
  apply (f_equal (@length float)) in E. rewrite sort_length in E.
  destruct l; [reflexivity | discriminate].
Qed.

(** Sorting yields an ascending arrangement for numpy's order. *)

Lemma insert_sorted (x : float) (l : list float) :
  StronglySorted np_le l -> StronglySorted np_le (Numpy.insert x l).
Proof.
  induction l as [|y l IH]; simpl; intros H.
  - repeat constructor.
  - inversion H as [|? ? Hs Hall]; subst.
    destruct (Numpy.lt y x) eqn:E.
    + constructor; [apply IH, Hs|].
      apply Forall_forall. intros z Hz. apply In_insert in Hz.
      destruct Hz as [-> | Hz]; [apply np_lt_asym, E|].
      rewrite Forall_forall in Hall. apply Hall, Hz.
    + constructor; [exact H|].
      constructor; [exact E|].
      eapply Forall_impl; [|exact Hall].
      intros z Hz. eapply np_le_trans; eassumption.
Qed.

Lemma sort_sorted (l : list float) : StronglySorted np_le (Numpy.sort l).
Proof.
  induction l as [|x l IH]; simpl; [constructor | apply insert_sorted, IH].
Qed.

Lemma drop_repeats_sorted (l : list float) :
  forall x, StronglySorted np_le (x :: l) ->
            StronglySorted np_lt_strict (x :: Numpy.drop_repeats x l).
Proof.
  induction l as [|y l IH]; intros x H; simpl.
  - repeat constructor.
  - inversion H as [|? ? Hs Hall]; subst.
    inversion Hall as [|? ? Hxy Hxl]; subst.
    specialize (IH y Hs).
    inversion IH as [|? ? Hs' Hall']; subst.
    assert (Hle : forall z, In z (Numpy.drop_repeats y l) -> np_le x z).
    { intros z Hz. rewrite Forall_forall in Hxl.
      eapply Hxl, In_drop_repeats, Hz. }
    destruct (y =? x)%float eqn:E; simpl.
    + constructor; [exact Hs'|].
      apply Forall_forall. intros z Hz. split; [apply Hle, Hz|].
      rewrite Forall_forall in Hall'. destruct (Hall' z Hz) as [_ Hzy].
      destruct (z =? x)%float eqn:Ezx; [|reflexivity].
      rewrite (eqb_trans z x y) in Hzy; [discriminate | exact Ezx |].
      rewrite eqb_sym. exact E.
    + constructor; [exact IH|].
      constructor; [split; assumption|].
      apply Forall_forall. intros z Hz. split; [apply Hle, Hz|].
      rewrite Forall_forall in Hall'. destruct (Hall' z Hz) as [Hyz Hzy].
      destruct (z =? x)%float eqn:Ezx; [|reflexivity].
      rewrite (eqb_sandwich x y z Ezx Hxy Hyz) in Hzy. discriminate.
Qed.

Lemma unique_sorted (l : list float) :
  StronglySorted np_lt_strict (Numpy.unique l).
Proof.
  unfold Numpy.unique. pose proof (sort_sorted l) as H.
  destruct (Numpy.sort l) as [|x s]; [constructor|].
  apply drop_repeats_sorted, H.
Qed.

Lemma strict_no_nan_sorted (l : list float) :
  StronglySorted np_lt_strict l -> Forall not_nan l ->
  StronglySorted (fun a b => (a <? b)%float = true) l.
Proof.
  induction 1 as [|a l Hs IH Hall]; intros Hn; [constructor|].
  inversion Hn as [|? ? Ha Hl]; subst.
  constructor; [apply IH, Hl|].
  rewrite Forall_forall in *. intros z Hz.
  destruct (Hall z Hz) as [Hle Hne].
  apply np_le_neq_ltb; [exact Hle | exact Hne |].
  apply is_nan_false, Hl, Hz.
Qed.

(** An ascending list without repeats is left as it is. *)




(** Pairwise different entries all survive [unique]. *)





End SortUnique.

(** * One pass of the loop *)

Section Pass.

Lemma setitem_ok {A : Type} (a : A) (l : list A) :
  forall i, (i < length l)%nat ->
            setitem l i a = Ok (firstn i l ++ a :: skipn (S i) l).
Proof.
  induction l as [|b l IH]; intros i Hi; simpl in Hi; [lia|].
  destruct i as [|i]; simpl; [reflexivity|].
  rewrite IH by lia. reflexivity.
Qed.

Lemma skipn_nth_error {A : Type} (l : list A) :
  forall i x, nth_error l i = Some x -> skipn i l = x :: skipn (S i) l.
Proof.
  induction l as [|b l IH]; intros [|i] x H; simpl in *; try discriminate.
  - congruence.
  - apply IH, H.
Qed.

Lemma firstn_S_update {A : Type} (a : A) (l : list A) (i : nat) :
  (i < length l)%nat ->
  firstn (S i) (firstn i l ++ a :: skipn (S i) l) = firstn i l ++ [a].
Proof.
  intros Hi.
  replace (S i) with (length (firstn i l) + 1)%nat
    by (rewrite length_firstn; lia).
  rewrite firstn_app_2. reflexivity.
Qed.

Variable digits : Z.
Variable inVal : list float.
Hypothesis ints : Forall (int_ok digits) inVal.

Lemma round_each_seq (n : nat) :
  forall (i : nat) (out : list float),
    (i + n = length inVal)%nat -> length out = length inVal ->
    round_each inVal (map (val_of digits) inVal) (seq i n) out
    = Ok (firstn i out ++ map (rounded digits) (skipn i inVal)).
Proof.
  induction n as [|n IH]; intros i out Hi Hl.
  - simpl. rewrite skipn_all2 by lia. rewrite firstn_all2 by lia.
    rewrite app_nil_r. reflexivity.
  - destruct (nth_error inVal i) as [x|] eqn:Ex;
      [|apply nth_error_None in Ex; lia].
    assert (Hx : int_ok digits x).
    { rewrite Forall_forall in ints. eapply ints, nth_error_In, Ex. }
    destruct Hx as [k Hk].
    cbn [seq round_each]. unfold getitem.
    rewrite nth_error_map, Ex. cbn [option_map bind]. rewrite Hk.
    cbn [bind]. rewrite setitem_ok by lia. cbn [bind].
    rewrite IH; [|lia|].
    + f_equal. rewrite (skipn_nth_error _ _ _ Ex).
      rewrite firstn_S_update by lia.
      cbn [map]. unfold rounded at 2, place. rewrite Hk.
      rewrite <- app_assoc. reflexivity.
    + rewrite length_app, length_firstn, Nat.min_l by lia. cbn [length].
      rewrite length_skipn. lia.
Qed.

Lemma attempt_ok :
  attempt inVal digits = Ok (Numpy.unique (map (rounded digits) inVal)).
Proof.
  unfold attempt. rewrite round_each_seq.
  - simpl. reflexivity.
  - reflexivity.
  - apply repeat_length.
Qed.

End Pass.

(** * The loop *)

Section Loop.

Lemma all_finite_int_ok (inVal : list float) (digits : Z) :
  all_finite inVal -> 0 <= digits <= 10 -> Forall (int_ok digits) inVal.
Proof.
  intros H Hd. eapply Forall_impl; [|exact H].
  intros v Hv. destruct (int_val_of_ok digits v Hv Hd) as [k [Hk _]].
  exists k. exact Hk.
Qed.

Lemma attempt_finite (inVal : list float) (digits : Z) :
  all_finite inVal -> 0 <= digits <= 10 ->
  attempt inVal digits = Ok (pass inVal digits).
Proof.
  intros H Hd. apply attempt_ok, all_finite_int_ok; assumption.
Qed.

Lemma while_loop_total (inVal : list float) (fuel : nat) :
  forall output digits,
    (Z.to_nat (limit - digits) <= fuel)%nat ->
    while_loop fuel inVal output digits <> None.
Proof.
  unfold limit.
  induction fuel as [|fuel IH]; intros output digits Hf; simpl;
    destruct (Nat.ltb_spec (length output) (length inVal));
    destruct (Z.ltb_spec digits limit); unfold limit in *; simpl;
    try discriminate; try lia.
  destruct (attempt inVal (digits + 1)); [apply IH; lia | discriminate].
Qed.

Lemma while_loop_more_fuel (inVal : list float) (fuel : nat) :
  forall output digits r,
    while_loop fuel inVal output digits = Some r ->
    while_loop (S fuel) inVal output digits = Some r.
Proof.
  induction fuel as [|fuel IH]; intros output digits r.
  - simpl. destruct (_ && _); [discriminate | tauto].
  - intros H. change (while_loop (S (S fuel)) inVal output digits) with
      (if (length output <? length inVal)%nat && (digits <? limit) then
         match attempt inVal (digits + 1) with
         | Ok output => while_loop (S fuel) inVal output (digits + 1)
         | Raise e => Some (Raise e)
         end
       else Some (Ok (output, digits))).
    simpl in H. destruct (_ && _); [|exact H].
    destruct (attempt inVal (digits + 1)); [apply IH, H | exact H].
Qed.

Lemma while_loop_finite (inVal : list float) (fuel : nat) :
  all_finite inVal ->
  forall output digits,
    -1 <= digits <= 10 -> (Z.to_nat (limit - digits) <= fuel)%nat ->
    exists out D, while_loop fuel inVal output digits = Some (Ok (out, D))
                  /\ loop_exit inVal output digits out D.
Proof.
  intros Hfin. unfold limit.
  induction fuel as [|fuel IH]; intros output digits Hd Hf; simpl;
    destruct (Nat.ltb_spec (length output) (length inVal)) as [Hlen|Hlen];
    destruct (Z.ltb_spec digits limit) as [Hlim|Hlim];
    unfold limit in *; simpl; try lia;
    try (exists output, digits; split; [reflexivity|];
         constructor; intros; try reflexivity; lia).
  rewrite (attempt_finite inVal (digits + 1) Hfin) by lia.
  destruct (IH (pass inVal (digits + 1)) (digits + 1)) as (out & D & E & X);
    [lia | lia |].
  exists out, D. split; [exact E|].
  destruct X as [Xr Xs Xp Xe Xt Xc].
  constructor; intros; try lia; try assumption.
  - destruct (Z.eq_dec D (digits + 1)) as [->|Hne].
    + apply Xs. reflexivity.
    + apply Xp. lia.
  - destruct (Z.eq_dec d (digits + 1)) as [->|Hne].
    + apply Xe. lia.
    + apply Xt. lia.
Qed.

End Loop.

(** ** [_plotRound] as a whole *)

Lemma plotRound_run_total (values : list float) :
  _plotRound_run 11 values <> None.
Proof. apply while_loop_total. vm_compute. lia. Qed.

Lemma inVal_finite (values : list float) :
  all_finite values -> all_finite (inVal_of values).
Proof.
  unfold all_finite, inVal_of. rewrite !Forall_forall. intros H v Hv.
  apply H, In_sort, In_unique, Hv.
Qed.

Lemma plotRound_run_finite (values : list float) :
  all_finite values ->
  exists out D,
    _plotRound_run 11 values = Some (Ok (out, D))
    /\ loop_exit (inVal_of values)
                 (map (fun x => (x * 0.0)%float) (tl (inVal_of values)))
                 (-1) out D.
Proof.
  intros H. apply while_loop_finite.
  - apply inVal_finite, H.
  - lia.
  - vm_compute. lia.
Qed.

Lemma plotRound_of_run (values out : list float) (D : Z) :
  _plotRound_run 11 values = Some (Ok (out, D)) ->
  _plotRound values = Some (Ok out).
Proof. unfold _plotRound. intros ->. reflexivity. Qed.

Lemma tl_shorter {A : Type} (l : list A) :
  l <> [] -> (length (tl l) < length l)%nat.
Proof. destruct l; simpl; [congruence | lia]. Qed.


(** More than eleven iterations change nothing. *)
Lemma plotRound_run_fuel (values : list float) (fuel : nat) :
  (11 <= fuel)%nat -> _plotRound_run fuel values = _plotRound_run 11 values.
Proof.
  intros H. replace fuel with (fuel - 11 + 11)%nat by lia.
  induction (fuel - 11)%nat as [|k IH]; [reflexivity|].
  destruct (_plotRound_run 11 values) as [r|] eqn:E;
    [|exfalso; exact (plotRound_run_total values E)].
  change (S k + 11)%nat with (S (k + 11)).
  apply while_loop_more_fuel, IH.
Qed.

(** * An infinity or a NaN in the input raises *)

Lemma lim_not_finite (v : float) :
  is_finite v = false -> Prim2SF (v * 0.0 + 10)%float = S754_nan.
Proof.
  intros H. rewrite add_spec, mul_spec.
  destruct (Prim2SF v) as [s|s| |s m e] eqn:E; try reflexivity; exfalso.
  - assert (is_finite v = true); [|congruence].
    unfold is_finite, is_infinity, is_nan. rewrite !eqb_spec, abs_spec, E.
    reflexivity.
  - assert (is_finite v = true); [|congruence].
    unfold is_finite, is_infinity, is_nan. rewrite !eqb_spec, abs_spec, E.
    simpl. unfold SFeqb. rewrite SFcompare_refl by discriminate. reflexivity.
Qed.

Lemma int_val_of_not_finite (digits : Z) (v : float) :
  is_finite v = false -> int (val_of digits v) = Raise ValueError.
Proof.
  intros H. pose proof (lim_not_finite v H) as L.
  unfold val_of. set (lim := (v * 0.0 + 10)%float) in *.
  set (val := (_ + 1)%float).
  assert (H1 : (val <? lim)%float = false).
  { rewrite ltb_cmp, cmp_nan_r by exact L. reflexivity. }
  rewrite H1. unfold Numpy.where_ at 2.
  assert (H2 : (- lim <? lim)%float = false).
  { rewrite ltb_cmp, cmp_nan_r by exact L. reflexivity. }
  unfold Numpy.where_ at 2. rewrite H2. unfold Numpy.where_.
  unfold int. rewrite opp_spec, L. reflexivity.
Qed.


(** A pass that returns has converted the decimal place of every entry. *)




(** Every input value is, up to [==], an entry of [inVal]. *)

Lemma drop_repeats_cover (l : list float) :
  forall prev v,
    In v l ->
    (prev =? v)%float = true
    \/ exists w, In w (Numpy.drop_repeats prev l)
                 /\ (w = v \/ (w =? v)%float = true).
Proof.
  induction l as [|y l IH]; intros prev v Hv; [destruct Hv|].
  cbn [Numpy.drop_repeats].
  destruct (y =? prev)%float eqn:E; cbn [negb].
  - destruct Hv as [-> | Hv].
    + left. rewrite eqb_sym. exact E.
    + destruct (IH y v Hv) as [Hy | (w & Hw & Hwv)].
      * left. apply eqb_trans with y; [rewrite eqb_sym; exact E | exact Hy].
      * right. exists w. auto.
  - right. destruct Hv as [-> | Hv].
    + exists v. split; [left; reflexivity | left; reflexivity].
    + destruct (IH y v Hv) as [Hy | (w & Hw & Hwv)].
      * exists y. split; [left; reflexivity | right; exact Hy].
      * exists w. split; [right; exact Hw | exact Hwv].
Qed.

Lemma unique_cover (l : list float) (v : float) :
  In v l ->
  exists w, In w (Numpy.unique l) /\ (w = v \/ (w =? v)%float = true).
Proof.
  intros Hv. apply In_sort in Hv. unfold Numpy.unique.
  destruct (Numpy.sort l) as [|x s]; [destruct Hv|].
  destruct Hv as [-> | Hv].
  - exists v. split; [left; reflexivity | left; reflexivity].
  - destruct (drop_repeats_cover s x v Hv) as [Hx | (w & Hw & Hwv)].
    + exists x. split; [left; reflexivity | right; exact Hx].
    + exists w. split; [right; exact Hw | exact Hwv].
Qed.

Lemma eqb_finite (w v : float) :
  (w =? v)%float = true -> is_finite w = true -> is_finite v = true.
Proof.
  intros E Hw. unfold is_finite, is_nan, is_infinity in *.
  rewrite !eqb_spec, !abs_spec in *.
  change (Prim2SF infinity) with (S754_infinity false) in *.
  destruct (Prim2SF w) as [sw|sw| |sw mw ew],
    (Prim2SF v) as [sv|sv| |sv mv ev];
    try destruct sw; try destruct sv; simpl in *; try discriminate;
    try reflexivity;
    unfold SFeqb in *; rewrite ?SFcompare_refl in * by discriminate;
    try discriminate; reflexivity.
Qed.



(** For instance, an infinite value makes [lim] a NaN and [int] raise. *)
Example plotRound_infinity :
  _plotRound [1; infinity]%float = Some (Raise ValueError).
Proof. vm_compute. reflexivity. Qed.

(** * The properties of the specification *)

(** ** The size of the result *)



(** ** The decimal place *)


Lemma rint_int_table :
  forallb (fun k => Leibniz.eqb (Numpy.rint (float_of_int k))
                                (float_of_int k))
          (zrange (-641) 1282) = true.
Proof. vm_compute. reflexivity. Qed.

(** [numpy.around] leaves an integer as it is. *)
Lemma rint_float_of_int (k : Z) :
  -641 <= k <= 640 -> Numpy.rint (float_of_int k) = float_of_int k.
Proof.
  intros Hk. apply FloatAxioms.Leibniz.eqb_spec.
  pose proof rint_int_table as T. rewrite forallb_forall in T.
  apply T, In_zrange. lia.
Qed.

(** [val_of] is [val_with] at the idealised logarithm, whose values
    [numpy.around] leaves as they are. *)
Lemma val_of_val_with (digits : Z) (v : float) :
  val_with Numpy.around_log10 digits v = val_of digits v.
Proof.
  unfold val_with, val_of.
  replace (Numpy.around (Numpy.around_log10 (abs v)) 0)
    with (Numpy.around_log10 (abs v)); [reflexivity|].
  change (Numpy.around (Numpy.around_log10 (abs v)) 0)
    with (Numpy.rint (Numpy.around_log10 (abs v))).
  unfold Numpy.around_log10.
  destruct (Prim2SF (abs v)) as [s|s| |s m e]; try destruct s;
    try reflexivity.
  symmetry. apply rint_float_of_int.
  pose proof (largest_range
                (fun k => Numpy.pow10_ltb (2 * k - 1) (Zpos m ^ 2) (2 * e))).
  unfold Numpy.nearest_log10. lia.
Qed.





(** Where the binary64 logarithm is a half-integer [numpy.around] takes
    the even neighbour: with the logarithm 0.5 of 3.1622776601683795 the
    decimal place at level 0 is 1; the integer nearest to the real
    logarithm, which is above 1/2, is 1 and gives the decimal place 0. *)
Example decimal_place_tie :
  int (val_with (fun _ => 0.5%float) 0 3.1622776601683795%float) = Ok 1
  /\ nearest_log10_abs 3.1622776601683795%float = Some 1
  /\ int (val_of 0 3.1622776601683795%float) = Ok 0.
Proof. repeat split; vm_compute; reflexivity. Qed.

(** ** The search over [digits] *)


(** The loop body runs at least once on a non-empty input. *)
Lemma loop_ran (values out : list float) (D : Z) :
  values <> [] ->
  loop_exit (inVal_of values)
            (map (fun x => (x * 0.0)%float) (tl (inVal_of values)))
            (-1) out D ->
  0 <= D <= 10.
Proof.
  intros Hne [Xr Xs Xp Xe Xt Xc].
  assert (HD : D <> -1); [|lia].
  intros HD. specialize (Xs HD).
  assert (Hin : inVal_of values <> []).
  { intros E. apply unique_nil_inv in E.
    apply (f_equal (@length float)) in E. rewrite sort_length in E.
    destruct values; [congruence | discriminate]. }
  apply tl_shorter in Hin.
  rewrite <- (length_map (fun x => (x * 0.0)%float)), <- Xs in Hin.
  specialize (Xc Hin). lia.
Qed.



(** ** Order of the result *)






Lemma inVal_nil (values : list float) : inVal_of values = [] -> values = [].
Proof.
  intros E. apply unique_nil_inv in E.
  apply (f_equal (@length float)) in E. rewrite sort_length in E.
  destruct values; [reflexivity | discriminate].
Qed.

(** The result of a finite input is empty, or the deduplicated rounding at
    the final level. *)
Lemma plotRound_finite_cases (values : list float) :
  all_finite values ->
  exists out D,
    _plotRound_run 11 values = Some (Ok (out, D))
    /\ ((values = [] /\ out = [] /\ D = -1)
        \/ (0 <= D <= 10 /\ out = pass (inVal_of values) D)).
Proof.
  intros Hfin.
  destruct values as [|v0 values'] eqn:Ev.
  - exists [], (-1). split; [reflexivity | left; auto].
  - rewrite <- Ev in *.
    destruct (plotRound_run_finite values Hfin) as (out & D & Hrun & X).
    assert (HD : 0 <= D <= 10) by (apply (loop_ran values out D); congruence).
    exists out, D. split; [exact Hrun | right].
    split; [exact HD | apply (exit_pass _ _ _ _ _ X); lia].
Qed.



(** ** No exception on finite input *)

Lemma eqb_zero (v : float) :
  (v =? 0)%float = true -> exists s, Prim2SF v = S754_zero s.
Proof.
  rewrite eqb_spec. change (Prim2SF 0) with (S754_zero false).
  destruct (Prim2SF v) as [s|s| |s m e]; try destruct s; simpl;
    try discriminate; eauto.
Qed.

Lemma abs_opp (v : float) : abs (- v) = abs v.
Proof.
  apply Prim2SF_inj. rewrite !abs_spec, opp_spec.
  destruct (Prim2SF v); reflexivity.
Qed.

Lemma is_finite_opp (v : float) : is_finite (- v) = is_finite v.
Proof.
  unfold is_finite, is_nan, is_infinity.
  rewrite abs_opp, !eqb_spec, opp_spec.
  destruct (Prim2SF v) as [s|s| |s m e]; try destruct s; simpl; try reflexivity;
    unfold SFeqb; rewrite !SFcompare_refl by discriminate; reflexivity.
Qed.

Lemma val_of_opp (digits : Z) (v : float) :
  is_finite v = true -> val_of digits (- v) = val_of digits v.
Proof.
  intros H. rewrite !val_of_finite, abs_opp; try reflexivity;
    try assumption. rewrite is_finite_opp. exact H.
Qed.

(** C5.  A finite input of any sign, zeros included, makes [_plotRound]
    return without an exception; the decimal place depends on the absolute
    value only, and a zero gets the decimal place 10, from the clamp. *)
Theorem plotRound_no_exception (values : list float) :
  all_finite values ->
  (exists out, _plotRound values = Some (Ok out))
  /\ (forall v digits, In v values -> 0 <= digits <= 10 ->
        val_of digits (- v) = val_of digits v
        /\ ((v =? 0)%float = true -> int (val_of digits v) = Ok 10)).
Proof.
  intros Hfin. split.
  - destruct (plotRound_run_finite values Hfin) as (out & D & Hrun & _).
    exists out. eapply plotRound_of_run, Hrun.
  - intros v digits Hv Hd.
    unfold all_finite in Hfin. rewrite Forall_forall in Hfin.
    split; [apply val_of_opp, Hfin, Hv|].
    intros Hz. destruct (eqb_zero v Hz) as [s E].
    apply (int_val_of_zero digits v s E Hd).
Qed.

Lemma plotRound_no_exception_witness :
  (exists out, _plotRound [0; -2.5; 100; -0]%float = Some (Ok out))
  /\ (forall v digits, In v [0; -2.5; 100; -0]%float -> 0 <= digits <= 10 ->
        val_of digits (- v) = val_of digits v
        /\ ((v =? 0)%float = true -> int (val_of digits v) = Ok 10)).
Proof.
  apply (plotRound_no_exception [0; -2.5; 100; -0]%float).
  repeat constructor.
Defined.

(** ** Running the routine on its own result *)


(** Rounding twice is not rounding once either: 1.4501 and 1.53 merge at
    one decimal place and are told apart at two, as 1.45 and 1.53, which
    one decimal place tells apart, as 1.4 and 1.5. *)
Example plotRound_double_rounding :
  _plotRound [1.4501; 1.53]%float = Some (Ok [1.45; 1.53]%float)
  /\ _plotRound [1.45; 1.53]%float = Some (Ok [1.4; 1.5]%float).
Proof. split; vm_compute; reflexivity. Qed.





(** The three values of the specification's example are returned as they
    are by a second run, at [digits = 4]. *)
Example plotRound_rerun_spec_example :
  _plotRound_run 11 [1.00001; 1.00002; 2]%float
  = Some (Ok ([1.00001; 1.00002; 2]%float, 4)).
Proof. vm_compute. reflexivity. Qed.

(** ** Determinism *)

(** C7.  The result of [self._plotRound(values)] is a function of [values]
    alone: two calls on equal inputs return equal results whatever the two
    plot objects are, and leave them as they were. *)
Theorem plotRound_deterministic (IsoLine : Type)
        (self1 self2 : PropertyPlot IsoLine) (values1 values2 : list float) :
  values1 = values2 ->
  fst (_plotRound_method IsoLine self1 values1)
  = fst (_plotRound_method IsoLine self2 values2)
  /\ snd (_plotRound_method IsoLine self1 values1) = self1
  /\ snd (_plotRound_method IsoLine self2 values2) = self2.
Proof. intros ->. repeat split. Qed.

Lemma plotRound_deterministic_witness :
  fst (_plotRound_method unit
         {| _x_index := 1; _y_index := 2; _isolines := [] |} [2; 1]%float)
  = fst (_plotRound_method unit
           {| _x_index := 3; _y_index := 4; _isolines := [(7, [tt])] |}
           [2; 1]%float)
  /\ snd (_plotRound_method unit
            {| _x_index := 1; _y_index := 2; _isolines := [] |} [2; 1]%float)
     = {| _x_index := 1; _y_index := 2; _isolines := [] |}
  /\ snd (_plotRound_method unit
            {| _x_index := 3; _y_index := 4; _isolines := [(7, [tt])] |}
            [2; 1]%float)
     = {| _x_index := 3; _y_index := 4; _isolines := [(7, [tt])] |}.
Proof.
  apply (plotRound_deterministic unit
           {| _x_index := 1; _y_index := 2; _isolines := [] |}
           {| _x_index := 3; _y_index := 4; _isolines := [(7, [tt])] |}
           [2; 1]%float [2; 1]%float).
  reflexivity.
Defined.

(** ** Examples of the specification *)

(** C8.  On [1.0, 2.0, 3.0] the first attempt, at [digits = 0], keeps the
    three values apart and the result is [1.0, 2.0, 3.0]. *)
Theorem plotRound_1_2_3 :
  _plotRound_run 1 [1; 2; 3]%float = Some (Ok ([1; 2; 3]%float, 0))
  /\ _plotRound [1; 2; 3]%float = Some (Ok [1; 2; 3]%float).
Proof. split; vm_compute; reflexivity. Qed.

(** C9.  On 0.0, 100.0 and 0.0001, in any order, no exception is raised
    and the result has three values, pairwise different. *)
Theorem plotRound_with_zero :
  Forall (fun values =>
            _plotRound values = Some (Ok [0; 0.0001; 100]%float))
         [[0; 100; 0.0001]; [0; 0.0001; 100]; [100; 0; 0.0001];
          [100; 0.0001; 0]; [0.0001; 0; 100]; [0.0001; 100; 0]]%float
  /\ length [0; 0.0001; 100]%float = 3%nat
  /\ distinct [0; 0.0001; 100]%float.
Proof.
  split; [|split; [reflexivity | repeat constructor]].
  repeat constructor; vm_compute; reflexivity.
Qed.

(** ** Validation of the range arguments *)

Lemma check_range_raises (iso_range : option (list float)) (num : option Z) :
  iso_range = None
  \/ (exists r, iso_range = Some r /\ length r = 1%nat /\ num <> Some 1)
  \/ (exists r, iso_range = Some r /\ length r = 2%nat /\ num = None) ->
  check_range iso_range num = Raise ValueError.
Proof.
  intros [-> | [(r & -> & Hl & Hn) | (r & -> & Hl & ->)]]; simpl.
  - reflexivity.
  - rewrite Hl. simpl. destruct num as [n|]; [|reflexivity].
    destruct (Z.eqb_spec n 1); [congruence | reflexivity].
  - rewrite Hl. reflexivity.
Qed.

(** C10.  [calc_isolines] raises [ValueError] when [iso_range] is [None],
    when it has one element and [num] is not 1, and when it has two
    elements and [num] is [None]; the plot object, with its isolines, is
    then as it was before the call. *)
Theorem calc_isolines_range_errors
        (IsoLine xy : Type) (XY_SWITCH : dict (dict (option xy))) (iT : Z)
        (x_index y_index : PropertyPlot IsoLine -> Z)
        (_get_axis_limits :
          PropertyPlot IsoLine -> option (Z * Z) -> list float)
        (generate_ranges :
          PropertyPlot IsoLine -> Z -> float -> float -> option Z -> list float)
        (new_line :
          PropertyPlot IsoLine -> Z -> float -> list float -> list float ->
          IsoLine)
        (self : PropertyPlot IsoLine) (iso_type : iso_key)
        (iso_range : option (list float)) (num : option Z) (rounding : bool)
        (points : Z) :
  iso_range = None
  \/ (exists r, iso_range = Some r /\ length r = 1%nat /\ num <> Some 1)
  \/ (exists r, iso_range = Some r /\ length r = 2%nat /\ num = None) ->
  calc_isolines IsoLine xy XY_SWITCH iT x_index y_index _get_axis_limits
    generate_ranges new_line self iso_type iso_range num rounding points
  = Some (Raise ValueError, self).
Proof.
  intros H. unfold calc_isolines.
  rewrite (check_range_raises iso_range num H). reflexivity.
Qed.

Lemma calc_isolines_range_errors_witness :
  calc_isolines unit unit [] 0 (fun _ => 0) (fun _ => 1) (fun _ _ => [])
    (fun _ _ _ _ _ => []) (fun _ _ _ _ _ => tt)
    {| _x_index := 0; _y_index := 1; _isolines := [(5, [tt])] |}
    (index 5) (Some [1; 2]%float) None true 200
  = Some (Raise ValueError,
          {| _x_index := 0; _y_index := 1; _isolines := [(5, [tt])] |}).
Proof.
  apply (calc_isolines_range_errors unit unit [] 0 (fun _ => 0) (fun _ => 1)
           (fun _ _ => []) (fun _ _ _ _ _ => []) (fun _ _ _ _ _ => tt)).
  right. right. exists [1; 2]%float. repeat split.
Defined.

(** * Further properties of [_plotRound] *)

(** ** An infinity or a NaN in the input *)

Lemma int_val_of_cases (digits : Z) (v : float) :
  0 <= digits <= 10 ->
  (is_finite v = true /\ exists k, int (val_of digits v) = Ok k)
  \/ (is_finite v = false /\ int (val_of digits v) = Raise ValueError).
Proof.
  intros Hd. destruct (is_finite v) eqn:E.
  - left. split; [reflexivity|].
    destruct (int_val_of_ok digits v E Hd) as [k [Hk _]]. eauto.
  - right. split; [reflexivity | apply int_val_of_not_finite, E].
Qed.

(** The pass over the indices stops with [ValueError] at the first entry
    that is not finite. *)
Lemma round_each_raises (digits : Z) (inVal : list float) (n : nat) :
  0 <= digits <= 10 ->
  forall (i : nat) (out : list float),
    (i + n = length inVal)%nat -> length out = length inVal ->
    Exists (fun v => is_finite v = false) (skipn i inVal) ->
    round_each inVal (map (val_of digits) inVal) (seq i n) out
    = Raise ValueError.
Proof.
  intros Hd. induction n as [|n IH]; intros i out Hi Hl Hex.
  - rewrite skipn_all2 in Hex by lia. inversion Hex.
  - destruct (nth_error inVal i) as [x|] eqn:Ex;
      [|apply nth_error_None in Ex; lia].
    rewrite (skipn_nth_error _ _ _ Ex) in Hex.
    cbn [seq round_each]. unfold getitem.
    rewrite nth_error_map, Ex. cbn [option_map bind].
    destruct (int_val_of_cases digits x Hd) as [[Hf [k Hk]] | [Hf Hr]].
    + rewrite Hk. cbn [bind]. rewrite setitem_ok by lia. cbn [bind].
      apply IH; [lia | |].
      * rewrite length_app, length_firstn, Nat.min_l by lia. cbn [length].
        rewrite length_skipn. lia.
      * inversion Hex as [? ? H|? ? H]; subst; [congruence | exact H].
    + rewrite Hr. reflexivity.
Qed.

Lemma inVal_not_finite (values : list float) (v : float) :
  In v values -> is_finite v = false ->
  Exists (fun w => is_finite w = false) (inVal_of values).
Proof.
  intros Hv Hf. unfold inVal_of.
  assert (Hv' : In v (Numpy.sort values)) by (apply In_sort, Hv).
  destruct (unique_cover _ v Hv') as (w & Hw & Hwv).
  apply Exists_exists. exists w. split; [exact Hw|].
  destruct Hwv as [-> | E]; [exact Hf|].
  destruct (is_finite w) eqn:Ew; [|reflexivity].
  rewrite (eqb_finite w v E Ew) in Hf. discriminate.
Qed.

Lemma plotRound_run_raises (values : list float) (v : float) (fuel : nat) :
  In v values -> is_finite v = false ->
  _plotRound_run (S fuel) values = Some (Raise ValueError).
Proof.
  intros Hv Hf. pose proof (inVal_not_finite values v Hv Hf) as Hex.
  unfold _plotRound_run.
  set (inVal := inVal_of values) in *.
  assert (Hne : inVal <> []) by (intros E; rewrite E in Hex; inversion Hex).
  pose proof (tl_shorter inVal Hne) as Hlt.
  rewrite <- (length_map (fun x => (x * 0.0)%float)) in Hlt.
  apply Nat.ltb_lt in Hlt.
  cbn [while_loop]. rewrite Hlt.
  change (-1 <? limit) with true. cbn [andb]. change (-1 + 1) with 0.
  unfold attempt.
  rewrite (round_each_raises 0 inVal (length inVal)); try lia.
  - reflexivity.
  - apply repeat_length.
  - exact Hex.
Qed.

Lemma plotRound_raises (values : list float) (v : float) :
  In v values -> is_finite v = false ->
  _plotRound values = Some (Raise ValueError).
Proof.
  intros Hv Hf. unfold _plotRound.
  rewrite (plotRound_run_raises values v 10 Hv Hf). reflexivity.
Qed.

(** X1.  An input with an infinity or a NaN makes [_plotRound] raise
    [ValueError], in the first pass of the loop: the entry of [lim] for
    that value is a NaN, both [where] select it, and [int] of a NaN
    raises. *)
Theorem plotRound_not_finite (values : list float) (v : float) :
  In v values -> is_finite v = false ->
  _plotRound_run 1 values = Some (Raise ValueError)
  /\ _plotRound values = Some (Raise ValueError).
Proof.
  intros Hv Hf. split.
  - apply (plotRound_run_raises values v 0 Hv Hf).
  - apply (plotRound_raises values v Hv Hf).
Qed.

Lemma plotRound_not_finite_witness :
  _plotRound_run 1 [2; neg_infinity; 1]%float = Some (Raise ValueError)
  /\ _plotRound [2; neg_infinity; 1]%float = Some (Raise ValueError).
Proof.
  apply (plotRound_not_finite [2; neg_infinity; 1]%float neg_infinity).
  - right. left. reflexivity.
  - reflexivity.
Defined.

(** ** Empty and single inputs *)

Lemma pass_nonempty (inVal : list float) (D : Z) :
  inVal <> [] -> pass inVal D <> [].
Proof.
  unfold pass. intros Hne E. apply unique_nil_inv in E.
  destruct inVal; [congruence | discriminate].
Qed.

(** X2.  For a finite input the result of [_plotRound] is empty exactly
    when the input is empty: merging roundings never removes the last
    value. *)
Theorem plotRound_empty_iff (values : list float) :
  all_finite values ->
  exists out, _plotRound values = Some (Ok out) /\ (out = [] <-> values = []).
Proof.
  intros Hfin.
  destruct (plotRound_finite_cases values Hfin) as (out & D & Hrun & H).
  exists out. split; [eapply plotRound_of_run, Hrun|].
  destruct H as [(Hv & Ho & _) | (HD & E)]; [tauto|].
  split.
  - intros Ho. apply inVal_nil.
    destruct (inVal_of values) as [|x l] eqn:Ei; [reflexivity|].
    exfalso. apply (pass_nonempty (x :: l) D); [discriminate | congruence].
  - intros ->. exact E.
Qed.

Lemma plotRound_empty_iff_witness :
  exists out,
    _plotRound [1; 1.0000000000000002]%float = Some (Ok out)
    /\ (out = [] <-> [1; 1.0000000000000002]%float = []).
Proof.
  apply (plotRound_empty_iff [1; 1.0000000000000002]%float).
  repeat constructor.
Defined.



(** ** The decimal place over the levels of [digits] *)

(** X4.  From one level of [digits] to the next the decimal place of a
    finite value never decreases and grows by at most one. *)
Theorem place_step (digits : Z) (v : float) :
  is_finite v = true -> 0 <= digits < 10 ->
  place digits v <= place (digits + 1) v <= place digits v + 1.
Proof.
  intros Hf Hd. unfold place.
  destruct (is_finite_cases v Hf) as [[s E] | (s & m & e & E)].
  - rewrite !(int_val_of_zero _ v s E) by lia. lia.
  - rewrite !(int_val_of_finite _ v s m e E) by lia. unfold clamp. lia.
Qed.

Lemma place_step_witness :
  place 3 0.02%float <= place (3 + 1) 0.02%float <= place 3 0.02%float + 1.
Proof. apply (place_step 3 0.02%float); [reflexivity | lia]. Defined.

(** ** Rounding and the sign *)

Lemma opp_involutive (x : float) : (- - x)%float = x.
Proof.
  apply Prim2SF_inj. rewrite !opp_spec.
  destruct (Prim2SF x) as [s|s| |s m e]; simpl; rewrite ?negb_involutive;
    reflexivity.
Qed.

Lemma binary_round_aux_opp (s : bool) (m e : Z) (l : location) :
  binary_round_aux prec emax (negb s) m e l
  = SFopp (binary_round_aux prec emax s m e l).
Proof.
  unfold binary_round_aux.
  destruct (shr_fexp prec emax m e l) as [mrs' e'].
  destruct (shr_fexp prec emax _ e' loc_Exact) as [mrs'' e''].
  destruct (shr_m mrs'') as [|p|p]; try reflexivity.
  destruct (e'' <=? emax - prec); reflexivity.
Qed.

Lemma SFmul_opp (x y : spec_float) :
  SF64mul (SFopp x) y = SFopp (SF64mul x y).
Proof.
  unfold SF64mul.
  destruct x as [sx|sx| |sx mx ex], y as [sy|sy| |sy my ey]; simpl;
    try reflexivity;
    try (destruct sx, sy; reflexivity).
  rewrite <- binary_round_aux_opp. destruct sx, sy; reflexivity.
Qed.

Lemma SFdiv_opp (x y : spec_float) :
  SF64div (SFopp x) y = SFopp (SF64div x y).
Proof.
  unfold SF64div.
  destruct x as [sx|sx| |sx mx ex], y as [sy|sy| |sy my ey]; simpl;
    try reflexivity;
    try (destruct sx, sy; reflexivity).
  destruct (SFdiv_core_binary prec emax (Z.pos mx) ex (Z.pos my) ey)
    as [[mz ez] lz].
  rewrite <- binary_round_aux_opp. destruct sx, sy; reflexivity.
Qed.

Lemma mul_opp (x y : float) : (- x * y)%float = (- (x * y))%float.
Proof.
  apply Prim2SF_inj. rewrite opp_spec, !mul_spec, opp_spec.
  apply SFmul_opp.
Qed.

Lemma div_opp (x y : float) : (- x / y)%float = (- (x / y))%float.
Proof.
  apply Prim2SF_inj. rewrite opp_spec, !div_spec, opp_spec.
  apply SFdiv_opp.
Qed.

Lemma opp_eqb_zero (x : float) : (- x =? 0)%float = (x =? 0)%float.
Proof.
  rewrite !eqb_spec, opp_spec.
  change (Prim2SF 0) with (S754_zero false).
  destruct (Prim2SF x) as [s|s| |s m e]; try destruct s; reflexivity.
Qed.

Lemma opp_ltb_zero (x : float) :
  not_nan x -> (x =? 0)%float = false ->
  (- x <? 0)%float = negb (x <? 0)%float.
Proof.
  unfold not_nan. rewrite !ltb_spec, !eqb_spec, opp_spec.
  change (Prim2SF 0) with (S754_zero false).
  destruct (Prim2SF x) as [s|s| |s m e]; try destruct s; cbv;
    congruence.
Qed.

Lemma rint_opp (x : float) : Numpy.rint (- x) = (- Numpy.rint x)%float.
Proof.
  unfold Numpy.rint. rewrite abs_opp, opp_eqb_zero.
  destruct (abs x <? 0x1p52)%float eqn:Ea; [|reflexivity].
  destruct (x =? 0)%float eqn:Ez; [reflexivity|].
  assert (Hn : not_nan x).
  { rewrite ltb_cmp in Ea.
    destruct (cmp (abs x) 0x1p52) as [c|] eqn:Ec; [|discriminate].
    apply cmp_some_inv in Ec. destruct Ec as [Hx _].
    unfold not_nan. intros E. apply Hx. rewrite abs_spec, E. reflexivity. }
  rewrite (opp_ltb_zero x Hn Ez).
  destruct (x <? 0)%float; cbn [negb]; rewrite opp_involutive; reflexivity.
Qed.

Lemma around_opp (a : float) (k : Z) :
  Numpy.around (- a) k = (- Numpy.around a k)%float.
Proof.
  unfold Numpy.around.
  destruct (0 <=? k).
  - destruct (k =? 0); [apply rint_opp|].
    rewrite mul_opp, rint_opp, div_opp. reflexivity.
  - rewrite div_opp, rint_opp, mul_opp. reflexivity.
Qed.

(** X5.  Rounding commutes with the change of sign: at every level of
    [digits] a finite value and its opposite get the same decimal place,
    and the rounding of the opposite is the opposite of the rounding, bit
    for bit. *)
Theorem rounded_opp (digits : Z) (v : float) :
  is_finite v = true ->
  place digits (- v) = place digits v
  /\ rounded digits (- v) = (- rounded digits v)%float.
Proof.
  intros Hf.
  assert (E : place digits (- v) = place digits v).
  { unfold place. rewrite (val_of_opp digits v Hf). reflexivity. }
  split; [exact E|].
  unfold rounded. rewrite E. apply around_opp.
Qed.

Lemma rounded_opp_witness :
  place 1 (- 1234.5)%float = place 1 1234.5%float
  /\ rounded 1 (- 1234.5)%float = (- rounded 1 1234.5)%float.
Proof. apply (rounded_opp 1 1234.5%float). reflexivity. Defined.

(** ** The result depends on the set of input values *)

Lemma ltb_irrefl (a : float) : (a <? a)%float = false.
Proof.
  rewrite ltb_cmp. destruct (Prim2SF a) eqn:E;
    try (rewrite cmp_refl by congruence; reflexivity).
  rewrite cmp_nan_l by exact E. reflexivity.
Qed.

Lemma ltb_asym (a b : float) :
  (a <? b)%float = true -> (b <? a)%float = false.
Proof.
  intros H. destruct (b <? a)%float eqn:E; [|reflexivity].
  rewrite <- (ltb_irrefl a). symmetry. apply ltb_trans with b; assumption.
Qed.

(** Two ascending lists with the same entries are equal. *)
Lemma ascending_same_set (l1 : list float) :
  forall l2,
    StronglySorted (fun a b => (a <? b)%float = true) l1 ->
    StronglySorted (fun a b => (a <? b)%float = true) l2 ->
    (forall x, In x l1 <-> In x l2) -> l1 = l2.
Proof.
  induction l1 as [|a l1 IH]; intros l2 H1 H2 Hin.
  - destruct l2 as [|b l2]; [reflexivity|].
    destruct (proj2 (Hin b)). left. reflexivity.
  - destruct l2 as [|b l2]; [destruct (proj1 (Hin a)); left; reflexivity|].
    inversion H1 as [|? ? Hs1 Ha]; subst.
    inversion H2 as [|? ? Hs2 Hb]; subst.
    rewrite Forall_forall in Ha, Hb.
    assert (E : a = b).
    { destruct (proj1 (Hin a)) as [E | Hab]; [left; reflexivity | auto |].
      destruct (proj2 (Hin b)) as [E | Hba]; [left; reflexivity | auto |].
      pose proof (ltb_asym _ _ (Ha b Hba)) as X.
      rewrite (Hb a Hab) in X. discriminate. }
    subst b. f_equal. apply IH; try assumption.
    intros x. split; intros Hx.
    + destruct (proj1 (Hin x)) as [E | Hx']; [right; exact Hx | | exact Hx'].
      subst x. pose proof (Ha a Hx) as X. rewrite ltb_irrefl in X.
      discriminate.
    + destruct (proj2 (Hin x)) as [E | Hx']; [right; exact Hx | | exact Hx'].
      subst x. pose proof (Hb a Hx) as X. rewrite ltb_irrefl in X.
      discriminate.
Qed.

(** Finite floats that compare equal are the same float, or two zeros. *)
Lemma eqb_cases (a b : float) :
  is_finite a = true -> (a =? b)%float = true ->
  a = b \/ ((a =? 0)%float = true /\ (b =? 0)%float = true).
Proof.
  intros Hf E.
  assert (Hb : is_finite b = true) by (apply (eqb_finite a b E Hf)).
  rewrite !eqb_spec in *. unfold SFeqb in *.
  change (Prim2SF 0) with (S754_zero false).
  destruct (is_finite_cases a Hf) as [[s Ea] | (s & m & e & Ea)];
    destruct (is_finite_cases b Hb) as [[sb Eb] | (sb & mb & eb & Eb)];
    rewrite Ea, Eb in *.
  - right. split; reflexivity.
  - destruct sb; discriminate.
  - destruct s; discriminate.
  - left. apply Prim2SF_inj. rewrite Ea, Eb.
    destruct s, sb; simpl in E; try discriminate;
      destruct (Z.compare_spec e eb); try discriminate; subst;
      change (Pos.compare_cont Eq m mb) with (Pos.compare m mb) in E;
      destruct (Pos.compare_spec m mb); try discriminate; subst; reflexivity.
Qed.

Lemma eqb_exact (a b : float) :
  is_finite a = true ->
  Prim2SF a <> S754_zero true -> Prim2SF b <> S754_zero true ->
  (a =? b)%float = true -> a = b.
Proof.
  intros Hf Ha Hb E.
  destruct (eqb_cases a b Hf E) as [H | [Za Zb]]; [exact H|].
  destruct (eqb_zero a Za) as [sa Ea]. destruct (eqb_zero b Zb) as [sb Eb].
  apply Prim2SF_inj. rewrite Ea, Eb in *.
  destruct sa, sb; congruence.
Qed.

Lemma inVal_ascending (values : list float) :
  all_finite values ->
  StronglySorted (fun a b => (a <? b)%float = true) (inVal_of values).
Proof.
  intros Hfin. apply strict_no_nan_sorted; [apply unique_sorted|].
  apply inVal_finite in Hfin.
  eapply Forall_impl; [|exact Hfin]. intros v. apply is_finite_not_nan.
Qed.

Lemma In_inVal (values : list float) (x : float) :
  all_finite values -> no_neg_zero values ->
  In x (inVal_of values) <-> In x values.
Proof.
  intros Hfin Hz. unfold all_finite, no_neg_zero in *.
  rewrite Forall_forall in Hfin, Hz. split.
  - intros H. apply In_sort, In_unique, H.
  - intros H. assert (H' : In x (Numpy.sort values)) by (apply In_sort, H).
    destruct (unique_cover _ x H') as (w & Hw & Hwx). unfold inVal_of.
    destruct Hwx as [-> | E]; [exact Hw|].
    assert (Hwv : In w values) by (apply In_sort, In_unique, Hw).
    rewrite <- (eqb_exact w x); auto.
Qed.

(** X6.  For a finite input without the negative zero the result of
    [_plotRound] depends on the set of input values only: neither their
    order nor their repetitions matter. *)
Theorem plotRound_same_set (values values' : list float) :
  all_finite values -> no_neg_zero values ->
  (forall x, In x values' <-> In x values) ->
  _plotRound values' = _plotRound values.
Proof.
  intros Hfin Hz Hin.
  assert (Hfin' : all_finite values').
  { unfold all_finite in *. rewrite Forall_forall in *.
    intros x Hx. apply Hfin, Hin, Hx. }
  assert (Hz' : no_neg_zero values').
  { unfold no_neg_zero in *. rewrite Forall_forall in *.
    intros x Hx. apply Hz, Hin, Hx. }
  assert (E : inVal_of values' = inVal_of values).
  { apply ascending_same_set; try (apply inVal_ascending; assumption).
    intros x. rewrite !In_inVal by assumption. apply Hin. }
  unfold _plotRound, _plotRound_run. rewrite E. reflexivity.
Qed.

Lemma plotRound_same_set_witness :
  _plotRound [2.5; 300; 1; 2.5; 1]%float = _plotRound [300; 1; 2.5]%float.
Proof.
  apply (plotRound_same_set [300; 1; 2.5]%float [2.5; 300; 1; 2.5; 1]%float).
  - repeat constructor.
  - repeat constructor; discriminate.
  - intros x; simpl; tauto.
Defined.

(** With both zeros in the input the order shows in the sign of the zero
    that is returned. *)
Example plotRound_zeros :
  _plotRound [0; -0]%float = Some (Ok [0%float])
  /\ _plotRound [-0; 0]%float = Some (Ok [(-0)%float]).
Proof. split; vm_compute; reflexivity. Qed.

(** ** Every input value is represented in the result *)

Lemma zero_cases (v : float) (s : bool) :
  Prim2SF v = S754_zero s -> v = 0%float \/ v = (-0)%float.
Proof.
  intros E. destruct s; [right | left]; apply Prim2SF_inj; rewrite E;
    reflexivity.
Qed.

Lemma rounded_zero (digits : Z) (v : float) :
  0 <= digits <= 10 -> (v =? 0)%float = true ->
  (rounded digits v =? 0)%float = true.
Proof.
  intros Hd Hz. destruct (eqb_zero v Hz) as [s E].
  unfold rounded, place. rewrite (int_val_of_zero digits v s E Hd).
  destruct (zero_cases v s E) as [-> | ->]; vm_compute; reflexivity.
Qed.





(** X8.  A zero stays a zero: when a finite input has a value equal to
    0.0, so has the result. *)
Theorem plotRound_zero (values : list float) (z : float) :
  all_finite values -> In z values -> (z =? 0)%float = true ->
  exists out w,
    _plotRound values = Some (Ok out) /\ In w out /\ (w =? 0)%float = true.
Proof.
  intros Hfin Hz Ez.
  destruct (plotRound_finite_cases values Hfin) as (out & D & Hrun & H).
  destruct H as [(-> & _) | (HD & E)]; [destruct Hz|].
  assert (Hz' : In z (Numpy.sort values)) by (apply In_sort, Hz).
  destruct (unique_cover _ z Hz') as (w & Hw & Hwz).
  assert (Ew : (w =? 0)%float = true).
  { destruct Hwz as [-> | Hwz]; [exact Ez|].
    apply eqb_trans with z; assumption. }
  assert (Hr : In (rounded D w) (map (rounded D) (inVal_of values))).
  { apply in_map, Hw. }
  destruct (unique_cover _ _ Hr) as (u & Hu & Huw).
  exists out, u. split; [eapply plotRound_of_run, Hrun|].
  split; [rewrite E; exact Hu|].
  pose proof (rounded_zero D w HD Ew) as R.
  destruct Huw as [-> | Huw]; [exact R|].
  apply eqb_trans with (rounded D w); assumption.
Qed.

Lemma plotRound_zero_witness :
  exists out w,
    _plotRound [5; -0; 0.25]%float = Some (Ok out)
    /\ In w out /\ (w =? 0)%float = true.
Proof.
  apply (plotRound_zero [5; -0; 0.25]%float (-0)%float).
  - repeat constructor.
  - right. left. reflexivity.
  - reflexivity.
Defined.

(** * Further properties of [calc_isolines] *)

Lemma dict_get_set_same {V : Type} (d : dict V) (k : Z) (v : V) :
  dict_get (dict_set d k v) k = Some v.
Proof.
  induction d as [|[k' v'] d IH]; simpl.
  - rewrite Z.eqb_refl. reflexivity.
  - destruct (Z.eqb_spec k' k) as [->|Hne]; simpl.
    + rewrite Z.eqb_refl. reflexivity.
    + destruct (Z.eqb_spec k' k); [congruence | exact IH].
Qed.

Lemma dict_get_set_other {V : Type} (d : dict V) (k k' : Z) (v : V) :
  k' <> k -> dict_get (dict_set d k v) k' = dict_get d k'.
Proof.
  intros Hne. induction d as [|[k0 v0] d IH]; simpl.
  - destruct (Z.eqb_spec k k'); [congruence | reflexivity].
  - destruct (Z.eqb_spec k0 k) as [->|Hk]; simpl.
    + destruct (Z.eqb_spec k k'); [congruence | reflexivity].
    + destruct (Z.eqb_spec k0 k'); [reflexivity | exact IH].
Qed.

Lemma plotRound_total (values : list float) : _plotRound values <> None.
Proof.
  unfold _plotRound. pose proof (plotRound_run_total values) as H.
  destruct (_plotRound_run 11 values) as [[[out D]|e]|]; congruence.
Qed.

Lemma check_range_ok (r : list float) (num : option Z) :
  (length r = 1%nat -> num = Some 1) -> (length r = 2%nat -> num <> None) ->
  check_range (Some r) num = Ok r.
Proof.
  intros H1 H2. unfold check_range.
  destruct (Nat.eqb_spec (length r) 1) as [E|E]; cbn [andb].
  - rewrite (H1 E), E. reflexivity.
  - destruct (Nat.eqb_spec (length r) 2) as [E2|E2]; cbn [andb];
      [|reflexivity].
    destruct num; [reflexivity | destruct (H2 E2); reflexivity].
Qed.

Lemma check_range_num (r : list float) (n : Z) :
  (length r = 1%nat -> n = 1) -> check_range (Some r) (Some n) = Ok r.
Proof.
  intros H. apply check_range_ok; [|discriminate].
  intros E. rewrite (H E). reflexivity.
Qed.

Section CalcIsolinesFacts.

Variable IsoLine : Type.
Variable xy : Type.
Variable XY_SWITCH : dict (dict (option xy)).
Variable iT : Z.
Variable x_index y_index : PropertyPlot IsoLine -> Z.
Variable _get_axis_limits :
  PropertyPlot IsoLine -> option (Z * Z) -> list float.
Variable generate_ranges :
  PropertyPlot IsoLine -> Z -> float -> float -> option Z -> list float.
Variable new_line :
  PropertyPlot IsoLine -> Z -> float -> list float -> list float -> IsoLine.

Lemma lines_of_set_same (self : PropertyPlot IsoLine) (k : Z)
      (l : list IsoLine) :
  lines_of (set_isolines IsoLine self k l) k = l.
Proof. unfold lines_of. simpl. rewrite dict_get_set_same. reflexivity. Qed.

Lemma lines_of_set_other (self : PropertyPlot IsoLine) (k k' : Z)
      (l : list IsoLine) :
  k' <> k -> lines_of (set_isolines IsoLine self k l) k' = lines_of self k'.
Proof.
  intros H. unfold lines_of. simpl. rewrite dict_get_set_other by exact H.
  reflexivity.
Qed.

(** The loop of lines 150-153 appends one isoline per index until an
    index is past the end of the range. *)
Lemma append_lines_spec (self : PropertyPlot IsoLine) (i : Z)
      (q ix iy : list float) (n : nat) :
  forall start lines,
    (start <= length q)%nat ->
    append_lines IsoLine new_line self i q ix iy (seq start n) lines
    = if (start + n <=? length q)%nat
      then (Ok tt,
            lines ++ map (fun v => new_line self i v ix iy)
                         (firstn n (skipn start q)))
      else (Raise IndexError,
            lines ++ map (fun v => new_line self i v ix iy) (skipn start q)).
Proof.
  induction n as [|n IH]; intros start lines Hs.
  - cbn [seq append_lines firstn map]. rewrite app_nil_r.
    destruct (Nat.leb_spec (start + 0) (length q)); [reflexivity | lia].
  - cbn [seq append_lines]. unfold getitem.
    destruct (nth_error q start) as [v|] eqn:E.
    + assert (Hlt : (start < length q)%nat).
      { apply nth_error_Some. congruence. }
      rewrite IH by lia. rewrite (skipn_nth_error _ _ _ E).
      replace (S start + n <=? length q)%nat
        with (start + S n <=? length q)%nat
        by (f_equal; lia).
      cbn [firstn map]. rewrite <- !app_assoc. reflexivity.
    + apply nth_error_None in E.
      destruct (Nat.leb_spec (start + S n) (length q)); [lia|].
      rewrite skipn_all2 by lia. cbn [map]. rewrite app_nil_r. reflexivity.
Qed.

Lemma append_lines_prefix (self : PropertyPlot IsoLine) (i : Z)
      (q ix iy : list float) (n : nat) (lines : list IsoLine) :
  exists extra,
    snd (append_lines IsoLine new_line self i q ix iy (seq 0 n) lines)
    = lines ++ extra.
Proof.
  rewrite append_lines_spec by lia.
  destruct (0 + n <=? length q)%nat; cbn [snd]; eauto.
Qed.

(** Rounding either returns or raises. *)
Lemma rounding_returns (rounding : bool) (q : list float) :
  exists x, (if rounding then _plotRound q else Some (Ok q)) = Some x.
Proof.
  destruct rounding; [|eauto].
  destruct (_plotRound q) as [x|] eqn:E; [eauto|].
  exfalso. exact (plotRound_total q E).
Qed.

(** The shape of every outcome of lines 134-155. *)
Lemma calc_lines_cases (self : PropertyPlot IsoLine) (i : Z)
      (r : list float) (num : option Z) (rounding : bool) (points : Z) :
  exists res self',
    calc_lines IsoLine _get_axis_limits generate_ranges new_line
      self i r num rounding points = Some (res, self')
    /\ (num = None -> exists e, res = Raise e)
    /\ (self' = self
        \/ exists n extra,
            num = Some n
            /\ self'
               = set_isolines IsoLine self i (lines_of self i ++ extra)).
Proof.
  unfold calc_lines, _plotRound_method. cbn [fst].
  set (q := match Numpy.sort (Numpy.unique r) with
            | [lo; hi] => generate_ranges self i lo hi num
            | _ => Numpy.sort (Numpy.unique r)
            end).
  destruct (rounding_returns rounding q) as [x ->].
  destruct x as [q'|e]; [|eauto 8].
  destruct (_ <- getitem (_get_axis_limits self None) 0%nat ;; _)
    as [[[[l0 l1] l2] l3]|e]; [|eauto 8].
  destruct num as [n|]; [|eauto 8].
  match goal with
  | |- context [append_lines IsoLine new_line ?s ?i ?q ?ix ?iy (seq 0 ?n) ?l]
    => destruct (append_lines_prefix s i q ix iy n l) as [extra Hx];
       destruct (append_lines IsoLine new_line s i q ix iy (seq 0 n) l)
         as [[[]|e] lines']
  end; cbn [snd] in Hx; subst lines'.
  - do 2 eexists. split; [reflexivity|]. split; [discriminate|].
    right. exists n, extra. split; reflexivity.
  - unfold lines_of.
    destruct (dict_get (_isolines IsoLine self) i) as [old|].
    + do 2 eexists. split; [reflexivity|]. split; [discriminate|].
      right. exists n, extra. split; reflexivity.
    + do 2 eexists. split; [reflexivity|]. split; [discriminate|].
      left. reflexivity.
Qed.

(** Lines 134-155 once the range and the axis limits are there. *)
Lemma calc_lines_run (self : PropertyPlot IsoLine) (i : Z)
      (r q limits : list float) (n : Z) (rounding : bool) (points : Z)
      (l0 l1 l2 l3 : float) :
  rounded_values IsoLine generate_ranges self i r (Some n) rounding
  = Some (Ok q) ->
  _get_axis_limits self None = l0 :: l1 :: l2 :: l3 :: limits ->
  calc_lines IsoLine _get_axis_limits generate_ranges new_line
    self i r (Some n) rounding points
  = match append_lines IsoLine new_line self i q
            (generate_ranges self (_x_index IsoLine self) l0 l1 (Some points))
            (generate_ranges self (_y_index IsoLine self) l2 l3 (Some points))
            (seq 0 (Z.to_nat n)) (lines_of self i) with
    | (Ok _, lines) => Some (Ok tt, set_isolines IsoLine self i lines)
    | (Raise e, lines) =>
        Some (Raise e,
              match dict_get (_isolines IsoLine self) i with
              | Some _ => set_isolines IsoLine self i lines
              | None => self
              end)
    end.
Proof.
  intros Hq Hl. unfold calc_lines, _plotRound_method. cbn [fst].
  unfold rounded_values, iso_values in Hq. cbv zeta in *.
  rewrite Hq, Hl. reflexivity.
Qed.

(** X9.  A call for one property that gets through appends one isoline
    for each of the first [num] values of the range, in order, to the
    isolines already stored for that property: a second call adds to
    the lines of the first. *)
Theorem calc_isolines_appends
        (self : PropertyPlot IsoLine) (i : Z) (r q limits : list float)
        (n : Z) (rounding : bool) (points : Z) (l0 l1 l2 l3 : float) :
  (length r = 1%nat -> n = 1) ->
  rounded_values IsoLine generate_ranges self i r (Some n) rounding
  = Some (Ok q) ->
  _get_axis_limits self None = l0 :: l1 :: l2 :: l3 :: limits ->
  (Z.to_nat n <= length q)%nat ->
  exists self',
    calc_isolines IsoLine xy XY_SWITCH iT x_index y_index _get_axis_limits
      generate_ranges new_line self (index i) (Some r) (Some n) rounding
      points
    = Some (Ok tt, self')
    /\ lines_of self' i
       = lines_of self i
         ++ lines_for IsoLine generate_ranges new_line self i l0 l1 l2 l3
              points (firstn (Z.to_nat n) q).
Proof.
  intros Hv Hq Hl Hn. unfold calc_isolines.
  rewrite (check_range_num r n Hv).
  rewrite (calc_lines_run self i r q limits n rounding points l0 l1 l2 l3
             Hq Hl).
  rewrite append_lines_spec by lia.
  destruct (Nat.leb_spec (0 + Z.to_nat n) (length q)); [|lia].
  eexists. split; [reflexivity|].
  rewrite lines_of_set_same. reflexivity.
Qed.

(** X10.  When [num] exceeds the number of values of the range, the call
    raises [IndexError] after one isoline for every value: these isolines
    stay in the list stored for the property when there was one, and the
    plot is as before the call when there was none. *)
Theorem calc_isolines_index_error
        (self : PropertyPlot IsoLine) (i : Z) (r q limits : list float)
        (n : Z) (rounding : bool) (points : Z) (l0 l1 l2 l3 : float) :
  (length r = 1%nat -> n = 1) ->
  rounded_values IsoLine generate_ranges self i r (Some n) rounding
  = Some (Ok q) ->
  _get_axis_limits self None = l0 :: l1 :: l2 :: l3 :: limits ->
  (length q < Z.to_nat n)%nat ->
  exists self',
    calc_isolines IsoLine xy XY_SWITCH iT x_index y_index _get_axis_limits
      generate_ranges new_line self (index i) (Some r) (Some n) rounding
      points
    = Some (Raise IndexError, self')
    /\ match dict_get (_isolines IsoLine self) i with
       | Some old =>
           lines_of self' i
           = old ++ lines_for IsoLine generate_ranges new_line self i
                      l0 l1 l2 l3 points q
       | None => self' = self
       end.
Proof.
  intros Hv Hq Hl Hn. unfold calc_isolines.
  rewrite (check_range_num r n Hv).
  rewrite (calc_lines_run self i r q limits n rounding points l0 l1 l2 l3
             Hq Hl).
  rewrite append_lines_spec by lia.
  destruct (Nat.leb_spec (0 + Z.to_nat n) (length q)); [lia|].
  unfold lines_of at 1.
  destruct (dict_get (_isolines IsoLine self) i) as [old|] eqn:E.
  - eexists. split; [reflexivity | apply lines_of_set_same].
  - exists self. split; reflexivity.
Qed.

(** With [num=None] the loop over [IsoLine.XY_SWITCH] leaves the plot as
    it is: a property that is found is called with a range of two values,
    which the validation refuses. *)
Lemma calc_all_num_none (switch : dict (dict (option xy)))
      (rounding : bool) (points : Z) (self : PropertyPlot IsoLine) :
  exists res,
    calc_all IsoLine xy iT x_index y_index _get_axis_limits generate_ranges
      new_line self switch None rounding points
    = Some (res, self).
Proof.
  induction switch as [|[i_type entries] switch IH]; cbn [calc_all];
    [eauto|].
  destruct (dict_get entries _) as [[x|]|]; try exact IH.
  destruct (getitem (_get_axis_limits self (Some (i_type, iT))) 0%nat)
    as [l0|e]; cbn [bind]; [|eauto].
  destruct (getitem (_get_axis_limits self (Some (i_type, iT))) 1%nat)
    as [l1|e]; cbn [bind]; [|eauto].
  unfold calc_isolines_index, check_range. cbn. eauto.
Qed.

(** X11.  With [num=None] no call changes the plot, and a call for one
    property always raises. *)
Theorem calc_isolines_num_none
        (self : PropertyPlot IsoLine) (iso_type : iso_key)
        (iso_range : option (list float)) (rounding : bool) (points : Z) :
  exists res,
    calc_isolines IsoLine xy XY_SWITCH iT x_index y_index _get_axis_limits
      generate_ranges new_line self iso_type iso_range None rounding points
    = Some (res, self)
    /\ (forall i, iso_type = index i -> exists e, res = Raise e).
Proof.
  unfold calc_isolines.
  destruct (check_range iso_range None) as [r|e]; [|eauto].
  destruct iso_type as [|i].
  - destruct (calc_all_num_none XY_SWITCH rounding points self) as [res E].
    exists res. split; [exact E | discriminate].
  - destruct (calc_lines_cases self i r None rounding points)
      as (res & self' & E & Hres & H).
    exists res. split; [|intros _ _; apply Hres; reflexivity].
    destruct H as [-> | (n & extra & Hn & _)]; [exact E | discriminate].
Qed.

(** X12.  A call for one property leaves the isolines of every other
    property, and the axes of the plot, as they were, whatever the
    outcome. *)
Theorem calc_isolines_frame
        (self : PropertyPlot IsoLine) (i : Z)
        (iso_range : option (list float)) (num : option Z) (rounding : bool)
        (points : Z) :
  exists res self',
    calc_isolines IsoLine xy XY_SWITCH iT x_index y_index _get_axis_limits
      generate_ranges new_line self (index i) iso_range num rounding points
    = Some (res, self')
    /\ _x_index IsoLine self' = _x_index IsoLine self
    /\ _y_index IsoLine self' = _y_index IsoLine self
    /\ forall k, k <> i ->
                 dict_get (_isolines IsoLine self') k
                 = dict_get (_isolines IsoLine self) k.
Proof.
  unfold calc_isolines.
  destruct (check_range iso_range num) as [r|e]; [|eauto 7].
  destruct (calc_lines_cases self i r num rounding points)
    as (res & self' & E & _ & H).
  exists res, self'. split; [exact E|].
  destruct H as [-> | (n & extra & _ & ->)]; [auto|].
  cbn [_x_index _y_index _isolines set_isolines].
  repeat split. intros k Hk. apply dict_get_set_other, Hk.
Qed.

Lemma calc_lines_keeps (self : PropertyPlot IsoLine) (i : Z)
      (r : list float) (num : option Z) (rounding : bool) (points : Z) :
  exists res self',
    calc_lines IsoLine _get_axis_limits generate_ranges new_line
      self i r num rounding points = Some (res, self')
    /\ forall k, exists extra, lines_of self' k = lines_of self k ++ extra.
Proof.
  destruct (calc_lines_cases self i r num rounding points)
    as (res & self' & E & _ & H).
  exists res, self'. split; [exact E|]. intros k.
  destruct H as [-> | (n & extra & _ & ->)];
    [exists []; rewrite app_nil_r; reflexivity|].
  destruct (Z.eq_dec k i) as [->|Hk].
  - exists extra. apply lines_of_set_same.
  - exists []. rewrite app_nil_r. apply lines_of_set_other, Hk.
Qed.

Lemma calc_all_keeps (switch : dict (dict (option xy))) (num : option Z)
      (rounding : bool) (points : Z) :
  forall self,
  exists res self',
    calc_all IsoLine xy iT x_index y_index _get_axis_limits generate_ranges
      new_line self switch num rounding points
    = Some (res, self')
    /\ forall k, exists extra, lines_of self' k = lines_of self k ++ extra.
Proof.
  induction switch as [|[i_type entries] switch IH]; intros self;
    cbn [calc_all].
  - exists (Ok tt), self. split; [reflexivity|].
    intros k. exists []. rewrite app_nil_r. reflexivity.
  - destruct (dict_get entries _) as [[x|]|]; try apply IH.
    destruct (_ <- getitem _ 0%nat ;; _) as [r|e].
    + unfold calc_isolines_index.
      destruct (check_range (Some r) num) as [r'|e].
      * destruct (calc_lines_keeps self i_type r' num rounding points)
          as (res & self1 & E & H1).
        rewrite E. destruct res as [[]|e].
        -- destruct (IH self1) as (res2 & self2 & E2 & H2).
           exists res2, self2. split; [exact E2|]. intros k.
           destruct (H1 k) as [x1 Ek1]. destruct (H2 k) as [x2 Ek2].
           exists (x1 ++ x2). rewrite Ek2, Ek1, app_assoc. reflexivity.
        -- exists (Raise e), self1. split; [reflexivity | exact H1].
      * exists (Raise e), self. split; [reflexivity|].
        intros k. exists []. rewrite app_nil_r. reflexivity.
    + exists (Raise e), self. split; [reflexivity|].
      intros k. exists []. rewrite app_nil_r. reflexivity.
Qed.

(** X13.  Every call returns or raises, and only ever adds isolines: for
    each property the isolines stored before the call are, in the same
    order, the first ones stored after it, also when the call raises and
    for ['all']. *)
Theorem calc_isolines_keeps_lines
        (self : PropertyPlot IsoLine) (iso_type : iso_key)
        (iso_range : option (list float)) (num : option Z) (rounding : bool)
        (points : Z) :
  exists res self',
    calc_isolines IsoLine xy XY_SWITCH iT x_index y_index _get_axis_limits
      generate_ranges new_line self iso_type iso_range num rounding points
    = Some (res, self')
    /\ forall k, exists extra, lines_of self' k = lines_of self k ++ extra.
Proof.
  unfold calc_isolines.
  destruct (check_range iso_range num) as [r|e].
  - destruct iso_type as [|i];
      [apply calc_all_keeps | apply calc_lines_keeps].
  - exists (Raise e), self. split; [reflexivity|].
    intros k. exists []. rewrite app_nil_r. reflexivity.
Qed.

Lemma calc_all_none (switch : dict (dict (option xy))) (num : option Z)
      (rounding : bool) (points : Z) (self : PropertyPlot IsoLine) :
  Forall (fun e =>
            dict_get (snd e) (y_index self * 10 + x_index self) = None
            \/ dict_get (snd e) (y_index self * 10 + x_index self)
               = Some None) switch ->
  calc_all IsoLine xy iT x_index y_index _get_axis_limits generate_ranges
    new_line self switch num rounding points
  = Some (Ok tt, self).
Proof.
  induction 1 as [|[i_type entries] switch H _ IH]; cbn [calc_all];
    [reflexivity|].
  cbn [snd] in H. destruct H as [-> | ->]; exact IH.
Qed.

(** X14.  With ['all'], a property of [IsoLine.XY_SWITCH] that has no
    entry, or the entry [None], for the axes of the plot is skipped: when
    this is so for every property the call returns and the plot is as it
    was. *)
Theorem calc_isolines_all_no_match
        (self : PropertyPlot IsoLine) (r : list float) (num : option Z)
        (rounding : bool) (points : Z) :
  (length r = 1%nat -> num = Some 1) -> (length r = 2%nat -> num <> None) ->
  Forall (fun e =>
            dict_get (snd e) (y_index self * 10 + x_index self) = None
            \/ dict_get (snd e) (y_index self * 10 + x_index self)
               = Some None) XY_SWITCH ->
  calc_isolines IsoLine xy XY_SWITCH iT x_index y_index _get_axis_limits
    generate_ranges new_line self all (Some r) num rounding points
  = Some (Ok tt, self).
Proof.
  intros H1 H2 Hs. unfold calc_isolines.
  rewrite (check_range_ok r num H1 H2). apply calc_all_none, Hs.
Qed.

(** X15.  With [rounding=True], a range with an infinity or a NaN makes
    the call raise the [ValueError] of [_plotRound], before any isoline
    is computed: the plot is as it was. *)
Theorem calc_isolines_rounding_error
        (self : PropertyPlot IsoLine) (i : Z) (r : list float) (n : Z)
        (points : Z) (v : float) :
  (length r = 1%nat -> n = 1) ->
  In v (iso_values IsoLine generate_ranges self i r (Some n)) ->
  is_finite v = false ->
  calc_isolines IsoLine xy XY_SWITCH iT x_index y_index _get_axis_limits
    generate_ranges new_line self (index i) (Some r) (Some n) true points
  = Some (Raise ValueError, self).
Proof.
  intros Hv Hin Hf. unfold calc_isolines.
  rewrite (check_range_num r n Hv).
  unfold calc_lines, _plotRound_method. cbn [fst].
  unfold iso_values in Hin. cbv zeta in Hin.
  rewrite (plotRound_raises _ v Hin Hf). reflexivity.
Qed.

End CalcIsolinesFacts.

(** A plot whose isolines are their values, with the axis limits
    [0, 1, 0, 1] and [generate_ranges] returning the two ends. *)

Lemma calc_isolines_appends_witness :
  exists self',
    calc_isolines float unit [] 0 (fun _ => 0) (fun _ => 1)
      (fun _ _ => [0; 1; 0; 1]%float) (fun _ _ lo hi _ => [lo; hi])
      (fun _ _ v _ _ => v)
      {| _x_index := 0; _y_index := 1; _isolines := [(5, [7%float])] |}
      (index 5) (Some [3; 1; 2]%float) (Some 2) true 200
    = Some (Ok tt, self')
    /\ lines_of self' 5 = [7; 1; 2]%float.
Proof.
  apply (calc_isolines_appends float unit [] 0 (fun _ => 0) (fun _ => 1)
           (fun _ _ => [0; 1; 0; 1]%float) (fun _ _ lo hi _ => [lo; hi])
           (fun _ _ v _ _ => v)
           {| _x_index := 0; _y_index := 1; _isolines := [(5, [7%float])] |}
           5 [3; 1; 2]%float [1; 2; 3]%float [] 2 true 200 0%float 1%float
           0%float 1%float).
  - intros H. discriminate H.
  - vm_compute. reflexivity.
  - reflexivity.
  - simpl. lia.
Defined.

Lemma calc_isolines_index_error_witness :
  exists self',
    calc_isolines float unit [] 0 (fun _ => 0) (fun _ => 1)
      (fun _ _ => [0; 1; 0; 1]%float) (fun _ _ lo hi _ => [lo; hi])
      (fun _ _ v _ _ => v)
      {| _x_index := 0; _y_index := 1; _isolines := [(5, [7%float])] |}
      (index 5) (Some [3; 1; 2]%float) (Some 15) false 200
    = Some (Raise IndexError, self')
    /\ lines_of self' 5 = [7; 1; 2; 3]%float.
Proof.
  apply (calc_isolines_index_error float unit [] 0 (fun _ => 0) (fun _ => 1)
           (fun _ _ => [0; 1; 0; 1]%float) (fun _ _ lo hi _ => [lo; hi])
           (fun _ _ v _ _ => v)
           {| _x_index := 0; _y_index := 1; _isolines := [(5, [7%float])] |}
           5 [3; 1; 2]%float [1; 2; 3]%float [] 15 false 200 0%float 1%float
           0%float 1%float).
  - intros H. discriminate H.
  - vm_compute. reflexivity.
  - reflexivity.
  - simpl. lia.
Defined.

Lemma calc_isolines_all_no_match_witness :
  calc_isolines float unit [(3, [(99, Some tt)]); (4, [(10, None)])] 0
    (fun _ => 0) (fun _ => 1)
    (fun _ _ => [0; 1; 0; 1]%float) (fun _ _ lo hi _ => [lo; hi])
    (fun _ _ v _ _ => v)
    {| _x_index := 0; _y_index := 1; _isolines := [(5, [7%float])] |}
    all (Some [3; 1; 2]%float) (Some 15) false 200
  = Some (Ok tt,
          {| _x_index := 0; _y_index := 1; _isolines := [(5, [7%float])] |}).
Proof.
  apply (calc_isolines_all_no_match float unit
           [(3, [(99, Some tt)]); (4, [(10, None)])] 0
           (fun _ => 0) (fun _ => 1)
           (fun _ _ => [0; 1; 0; 1]%float) (fun _ _ lo hi _ => [lo; hi])
           (fun _ _ v _ _ => v)).
  - intros H. discriminate H.
  - intros H. discriminate H.
  - constructor; [left; reflexivity|].
    constructor; [right; reflexivity | constructor].
Defined.

Lemma calc_isolines_rounding_error_witness :
  calc_isolines float unit [] 0 (fun _ => 0) (fun _ => 1)
    (fun _ _ => [0; 1; 0; 1]%float) (fun _ _ lo hi _ => [lo; hi])
    (fun _ _ v _ _ => v)
    {| _x_index := 0; _y_index := 1; _isolines := [(5, [7%float])] |}
    (index 5) (Some [3; infinity; 2]%float) (Some 3) true 200
  = Some (Raise ValueError,
          {| _x_index := 0; _y_index := 1; _isolines := [(5, [7%float])] |}).
Proof.
  apply (calc_isolines_rounding_error float unit [] 0 (fun _ => 0)
           (fun _ => 1) (fun _ _ => [0; 1; 0; 1]%float)
           (fun _ _ lo hi _ => [lo; hi]) (fun _ _ v _ _ => v)
           {| _x_index := 0; _y_index := 1; _isolines := [(5, [7%float])] |}
           5 [3; infinity; 2]%float 3 200 infinity).
  - intros H. discriminate H.
  - vm_compute. right. right. left. reflexivity.
  - reflexivity.
Defined.
